(** * solara.components.markdown: Markdown rendering with live code fences

    A shallow embedding of [src/solara/components/markdown.py].  Python
    strings are [string]s whose characters are the code points below 256
    (so no text holds a surrogate and [encode("utf-8")] cannot raise),
    the dictionary that [exec] fills is a
    [gmap string value], and every call that can raise or touch state
    runs in a result-and-state monad over an explicit [world].  The
    libraries the module calls (pygments, the Markdown engines, the
    Python interpreter, the widget framework, hashlib) are the fields of
    the interface [Host]. *)

From Stdlib Require Import ZArith Ascii String List Lia.
From stdpp Require Import base strings pretty gmap.

Local Open Scope Z_scope.
Local Open Scope nat_scope.

(** ** Text primitives *)

(** The one-character string holding a double quote. *)
Definition dq : string := String (ascii_of_nat 34) EmptyString.

(** The one-character string holding a line feed. *)
Definition nl : string := String (ascii_of_nat 10) EmptyString.

(** [str.startswith]: [startswith s p] holds when [p] begins [s]. *)
Definition startswith (s p : string) : bool := String.prefix p s.

(** [t in s] on strings. *)
Fixpoint contains (t s : string) : bool :=
  String.prefix t s ||
  match s with
  | EmptyString => false
  | String _ s' => contains t s'
  end.

(** Number of positions of [s] at which [t] starts. *)
Fixpoint occurrences (t s : string) : nat :=
  (if String.prefix t s then 1 else 0) +
  match s with
  | EmptyString => 0
  | String _ s' => occurrences t s'
  end.

(** [tag_clear t s]: no non-empty suffix of [s] begins with [t] or is the
    beginning of [t].  So [s] holds no occurrence of [t] and does not end
    inside one; text put after [s] cannot complete an occurrence. *)
Fixpoint tag_clear (t s : string) : bool :=
  match s with
  | EmptyString => true
  | String _ s' =>
      negb (String.prefix t s) && negb (String.prefix s t) && tag_clear t s'
  end.

(** No character of [s] equals [c]. *)
Fixpoint char_free (c : ascii) (s : string) : bool :=
  match s with
  | EmptyString => true
  | String x s' => negb (Ascii.eqb x c) && char_free c s'
  end.

(** markdown-it's [escapeHtml]: the four characters with an HTML meaning
    become entities. *)
Fixpoint escapeHtml (s : string) : string :=
  match s with
  | EmptyString => EmptyString
  | String c s' =>
      (if Ascii.eqb c "&" then "&amp;"
       else if Ascii.eqb c "<" then "&lt;"
       else if Ascii.eqb c ">" then "&gt;"
       else if Ascii.eqb c (ascii_of_nat 34) then "&quot;"
       else String c EmptyString) +:+ escapeHtml s'
  end.

(** ** [repr] and [str] of the values the module prints *)

Definition hex_digit (n : nat) : ascii :=
  match n with
  | 0 => "0" | 1 => "1" | 2 => "2" | 3 => "3" | 4 => "4" | 5 => "5"
  | 6 => "6" | 7 => "7" | 8 => "8" | 9 => "9" | 10 => "a" | 11 => "b"
  | 12 => "c" | 13 => "d" | 14 => "e" | _ => "f"
  end%char.

(** One character of [repr(str)], for the quote character [quote] that
    was chosen.  The code points below 256 that are not printable, and
    so are written as an escape, are the control characters 0..31 and
    127..159, the no-break space 160 and the soft hyphen 173. *)
Definition repr_char (quote c : ascii) : string :=
  let n := nat_of_ascii c in
  if Ascii.eqb c quote || Ascii.eqb c "\" then String "\" (String c EmptyString)
  else if Ascii.eqb c (ascii_of_nat 9) then "\t"
  else if Ascii.eqb c (ascii_of_nat 10) then "\n"
  else if Ascii.eqb c (ascii_of_nat 13) then "\r"
  else if (n <? 32) || ((127 <=? n) && (n <=? 160)) || (n =? 173) then
    String "\" (String "x" (String (hex_digit (n / 16))
      (String (hex_digit (n mod 16)) EmptyString)))
  else String c EmptyString.

Fixpoint repr_chars (quote : ascii) (s : string) : string :=
  match s with
  | EmptyString => EmptyString
  | String c s' => repr_char quote c +:+ repr_chars quote s'
  end.

(** [repr(s)] for a string: single quotes, unless the text holds a single
    quote and no double quote. *)
Definition repr_str (s : string) : string :=
  let quote : ascii :=
    if contains "'" s && negb (contains dq s) then ascii_of_nat 34 else "'"%char in
  String quote (repr_chars quote s) +:+ String quote EmptyString.

(** [str(b)] for a bool. *)
Definition str_bool (b : bool) : string := if b then "True" else "False".

(** [repr(n)] for an int. *)
Definition repr_int (n : Z) : string := pretty n.

(** [", ".join(items)]. *)
Definition join_comma (items : list string) : string := String.concat ", " items.

(** [repr(l)] for a list of ints. *)
Definition repr_list (l : list Z) : string :=
  "[" +:+ join_comma (map repr_int l) +:+ "]".

(** ** Exceptions *)

(** An exception object, as far as the module looks at it: the name of
    its class, what [repr] and [str] give for it, and whether the class
    derives from [Exception] (so that [except Exception] catches it).
    An exception raised by a library or by executed code comes with its
    own two texts, whatever its class and its arguments. *)
Record exn := Exn {
  exn_class : string;
  exn_repr : string;
  exn_str : string;
  exn_is_Exception : bool
}.

(** An exception built with the one string argument [msg], of a class
    that keeps the default [__repr__] and [__str__]. *)
Definition exn_of_message (cls msg : string) (is_exception : bool) : exn :=
  Exn cls (cls +:+ "(" +:+ repr_str msg +:+ ")") msg is_exception.

Definition NameError (msg : string) : exn := exn_of_message "NameError" msg true.

(** What [get_lexer_by_name] raises for an alias it does not know. *)
Definition ClassNotFound (alias : string) : exn :=
  exn_of_message "ClassNotFound"
    ("no lexer for alias " +:+ repr_str alias +:+ " found") true.

(** [repr(e)]. *)
Definition repr_exn (e : exn) : string := exn_repr e.

(** [str(e)]. *)
Definition str_exn (e : exn) : string := exn_str e.

(** ** [textwrap.dedent]

    [textwrap.dedent] belongs to Python's standard library, not to src/.
    The definitions of this part follow its steps line by line: lines
    made only of spaces and tabs are emptied, the margin is the longest
    run of spaces and tabs that begins every other line, and the margin
    is cut from each line that begins with it. *)

(** The characters of [[ \t]]. *)
Definition is_blank (c : ascii) : bool :=
  Ascii.eqb c " " || Ascii.eqb c (ascii_of_nat 9).

Fixpoint all_blank (s : string) : bool :=
  match s with
  | EmptyString => true
  | String c s' => is_blank c && all_blank s'
  end.

(** [text.split("\n")]. *)
Fixpoint split_lines (s : string) : list string :=
  match s with
  | EmptyString => [EmptyString]
  | String c s' =>
      if Ascii.eqb c (ascii_of_nat 10) then EmptyString :: split_lines s'
      else match split_lines s' with
           | l :: ls => String c l :: ls
           | [] => [String c EmptyString]
           end
  end.

(** ["\n".join(lines)]. *)
Definition join_lines (lines : list string) : string := String.concat nl lines.

(** [_whitespace_only_re.sub('', text)], on one line. *)
Definition blank_out (line : string) : string :=
  if all_blank line then EmptyString else line.

(** The leading run of spaces and tabs that [_leading_whitespace_re]
    captures, on one line. *)
Fixpoint leading_blank (s : string) : string :=
  match s with
  | EmptyString => EmptyString
  | String c s' => if is_blank c then String c (leading_blank s') else EmptyString
  end.

(** The longest common beginning of two strings. *)
Fixpoint common_prefix (a b : string) : string :=
  match a, b with
  | String x a', String y b' =>
      if Ascii.eqb x y then String x (common_prefix a' b') else EmptyString
  | _, _ => EmptyString
  end.

(** One turn of the loop over [indents]. *)
Definition margin_step (margin : option string) (indent : string) : option string :=
  match margin with
  | None => Some indent
  | Some m =>
      if startswith indent m then Some m
      else if startswith m indent then Some indent
      else Some (common_prefix m indent)
  end.

(** [s] without its first [n] characters. *)
Fixpoint drop_chars (n : nat) (s : string) : string :=
  match n, s with
  | S n', String _ s' => drop_chars n' s'
  | _, _ => s
  end.

(** The last [re.sub] of [dedent], which deletes [margin] at the start of
    a line, on one line. *)
Definition cut_margin (margin line : string) : string :=
  if startswith line margin then drop_chars (String.length margin) line else line.

(** The margin that the loop over [indents] ends with; [None] when no
    line has a character other than space and tab. *)
Definition margin_of (lines : list string) : option string :=
  fold_left margin_step
    (map leading_blank (List.filter (fun l => negb (all_blank l)) lines)) None.

(** [if margin: text = re.sub(...)], on one line: nothing is cut for the
    margin [None] and for the empty margin. *)
Definition cut_line (margin : option string) (line : string) : string :=
  match margin with
  | Some (String c m) => cut_margin (String c m) line
  | _ => line
  end.

(** Modelled from the spec: [textwrap.dedent], which is not under src/.
    "Normalizes indentation (removes a uniform leading-whitespace prefix
    shared by all lines) before tokenizing." *)
Definition dedent (text : string) : string :=
  let lines := map blank_out (split_lines text) in
  join_lines (map (cut_line (margin_of lines)) lines).

(** The document [text] with the prefix [p] put before each of its lines. *)
Definition indent_lines (p text : string) : string :=
  join_lines (map (String.append p) (split_lines text)).

(** A line of the padded document once its blank lines are emptied, from
    the same line [b] of the document itself. *)
Definition pad_line (p b : string) : string :=
  if all_blank b then EmptyString else p +:+ b.

(** ** Markup constants of the module *)

Definition html_no_execute_enabled : string :=
  "<div><i>Solara execution is not enabled</i></div>".

(** The opening of a live-widget reference. *)
Definition widget_tag : string := "<jupyter-widget".

(** The markup that [_run_solara] returns for the widget [widget_id]. *)
Definition widget_markup (widget_id : string) : string :=
  "<div class=" +:+ dq +:+ "solara-markdown-output v-card v-sheet elevation-7" +:+ dq +:+ ">" +:+
  "<jupyter-widget widget=" +:+ dq +:+ "IPY_MODEL_" +:+ widget_id +:+ dq +:+
  ">loading widget...</jupyter-widget>" +:+
  "<div class=" +:+ dq +:+ "v-messages" +:+ dq +:+ ">Live output</div></div>".

Definition template_head : string :=
  "
<template>
    <div class=" +:+
  dq +:+
  "solara-markdown rendered_html jp-RenderedHTMLCommon" +:+
  dq +:+
  " style=" +:+
  dq.

Definition template_mid : string :=
  dq +:+
  ">".

Definition template_tail : string :=
  "</div>
</template>

<script>
module.exports = {
    mounted() {
        mermaid.init()
        this.$el.querySelectorAll(" +:+
  dq +:+
  "a" +:+
  dq +:+
  ").forEach(a => this.setupRouter(a))
        window.md = this.$el
    },
    methods: {
        setupRouter(a) {
            let href = a.attributes['href'].value;
            if(href.startsWith(" +:+
  dq +:+
  "./" +:+
  dq +:+
  ")) {
                // TODO: should we really do this?
                href = location.pathname + href.substr(1);
                a.attributes['href'].href = href;
                // console.log(" +:+
  dq +:+
  "change href to" +:+
  dq +:+
  ", href);
            }
            if(href.startsWith(" +:+
  dq +:+
  "./" +:+
  dq +:+
  ") || href.startsWith(" +:+
  dq +:+
  "/" +:+
  dq +:+
  ")) {
                // console.log(" +:+
  dq +:+
  "connect link with href=" +:+
  dq +:+
  ", href, " +:+
  dq +:+
  "to router" +:+
  dq +:+
  ")
                a.onclick = e => {
                    console.log(" +:+
  dq +:+
  "clicked" +:+
  dq +:+
  ", href)
                    if(href.startsWith(" +:+
  dq +:+
  "./" +:+
  dq +:+
  ")) {
                        solara.router.push(href);
                    } else {
                        solara.router.push(href);
                    }
                    e.preventDefault()
                }
            } else if(href.startsWith(" +:+
  dq +:+
  "#" +:+
  dq +:+
  ")) {
                // console.log(" +:+
  dq +:+
  "connect anchor with href=" +:+
  dq +:+
  ", href, " +:+
  dq +:+
  "to custom javascript due to using <base>" +:+
  dq +:+
  ")
                href = location.pathname + href;
                a.attributes['href'].value = href;
            } else {
                console.log(" +:+
  dq +:+
  "href" +:+
  dq +:+
  ", href, " +:+
  dq +:+
  "is not a local link" +:+
  dq +:+
  ")
            }
        }
    },
    updated() {
        // if the html gets update, re-run mermaid
        mermaid.init()
    }
}
</script>
    ".

Definition _markdown_template (html style : string) : string :=
  template_head +:+ style +:+ template_mid +:+ html +:+ template_tail.

(** ** Component trees and documents *)

(** The element trees [_run_solara] builds: an object taken from the
    executed scope, or that object under the two wrapping components. *)
#[warnings="-register-all"]
Inductive element (V : Type) : Type :=
| El_obj (v : V)
| El_ExceptionGuard (children : list (element V))
| El_AppLayoutEmbed (children : list (element V)).
Arguments El_obj {V} v.
Arguments El_ExceptionGuard {V} children.
Arguments El_AppLayoutEmbed {V} children.

(** What the body of [ExceptionGuard] shows. *)
Inductive guard_view (V : Type) : Type :=
| Guard_error (summary details_title : string) (e : exn)
| Guard_child (child : element V)
| Guard_column (children : list (element V)).
Arguments Guard_error {V} summary details_title e.
Arguments Guard_child {V} child.
Arguments Guard_column {V} children.

(** The body of the component [ExceptionGuard]; [exception] is what
    [solara.use_exception] reports. *)
Definition ExceptionGuard {V} (exception : option exn)
    (children : list (element V)) : guard_view V :=
  match exception with
  | Some e =>
      Guard_error ("Oops, an error occurred: " +:+ str_exn e) "Exception details" e
  | None =>
      match children with
      | [c] => Guard_child c
      | _ => Guard_column children
      end
  end.

(** What a Markdown engine sees in a document: markup of its own, and
    fenced blocks with a language tag, attributes and a body. *)
Inductive token : Type :=
| Html (html : string)
| Fence (lang attrs body : string).

(** The [style] argument of [Markdown]. *)
Inductive style_arg : Type :=
| Style_none
| Style_str (css : string)
| Style_dict (items : list (string * string)).

Inductive event : Type :=
| Ev_compile (code : string)
| Ev_exec
| Ev_call
| Ev_render (box : nat).

(** A record written by [logger.exception]. *)
Record log_record := Log_error {
  log_message : string;
  log_exc_info : exn
}.

(** ** The libraries the module calls *)

Class Host := {
  (** Python objects bound by executed code *)
  value : Type;
  (** everything outside the module that executed code can change *)
  ext : Type;
  lexer : Type;
  code_object : Type;
  (** pygments: the lexer registered for an alias, if any *)
  lexers : string -> option lexer;
  (** [pygments.highlight(src, lexer, HtmlFormatter())] *)
  pygments_highlight : string -> lexer -> string;
  (** [compile(code, "markdown", "exec")] *)
  py_compile : string -> exn + code_object;
  (** [exec(ast, scope)]: the scope as the code leaves it.  The code is
      taken to leave the module's own logger and the containers that the
      module creates alone; everything else it does is a change of [ext]. *)
  py_exec : code_object -> gmap string value -> ext -> (exn + gmap string value) * ext;
  (** calling an object with no argument *)
  py_call : value -> ext -> (exn + value) * ext;
  (** [solara.render(tree, container=box)] *)
  solara_render : element value -> nat -> ext -> (exn + unit) * ext;
  (** [_model_id] of the n-th widget created *)
  model_id : nat -> string;
  (** [hashlib.sha256(text.encode("utf-8")).hexdigest()]; the text holds
      code points below 256 only, which always encode *)
  sha256_hexdigest : string -> string;
  (** [solara.util._flatten_style] *)
  _flatten_style : style_arg -> string;
  (** the tokens markdown-it finds in a text *)
  markdown_it_parse : string -> list token;
  (** the tokens python-markdown with superfences finds in a text *)
  markdown_parse : string -> list token;
  (** [pymdownx.superfences.fence_div_format] *)
  fence_div_format : string -> string -> string -> string;
  (** superfences' own rendering of a fence that no custom fence claims *)
  superfences_highlight : string -> string -> string -> string
}.

(** ** State and control *)

Record world `{Host} := World {
  w_ext : ext;
  (** number of widgets created so far *)
  w_boxes : nat;
  (** the trees mounted into containers, newest first *)
  w_mounted : list (nat * element value);
  w_log : list log_record;
  w_trace : list event
}.

Inductive result (A : Type) : Type :=
| Ok (a : A)
| Raise (e : exn).
Arguments Ok {A} a.
Arguments Raise {A} e.

Definition M `{Host} (A : Type) : Type := world -> result A * world.

Definition ret `{Host} {A} (a : A) : M A := fun w => (Ok a, w).

Definition raise `{Host} {A} (e : exn) : M A := fun w => (Raise e, w).

Definition bind `{Host} {A B} (m : M A) (k : A -> M B) : M B :=
  fun w =>
    match m w with
    | (Ok a, w') => k a w'
    | (Raise e, w') => (Raise e, w')
    end.

Notation "x <- m ;; k" := (bind m (fun x => k))
  (at level 100, m at next level, right associativity).

(** [try: m  except Exception as e: handler e]. *)
Definition try_except `{Host} {A} (m : M A) (handler : exn -> M A) : M A :=
  fun w =>
    match m w with
    | (Raise e, w') => if exn_is_Exception e then handler e w' else (Raise e, w')
    | r => r
    end.

Definition of_sum {A} (r : exn + A) : result A :=
  match r with
  | inl e => Raise e
  | inr a => Ok a
  end.

Definition record `{Host} (ev : event) (w : world) : world :=
  World _ (w_ext w) (w_boxes w) (w_mounted w) (w_log w) (ev :: w_trace w).

Definition with_ext `{Host} (x : ext) (w : world) : world :=
  World _ x (w_boxes w) (w_mounted w) (w_log w) (w_trace w).

(** ** Calls into the libraries *)

(** [pygments.lexers.get_lexer_by_name]. *)
Definition get_lexer_by_name `{Host} (alias : string) : M lexer :=
  fun w =>
    match lexers alias with
    | Some l => (Ok l, w)
    | None => (Raise (ClassNotFound alias), w)
    end.

Definition compile `{Host} (code : string) : M code_object :=
  fun w => (of_sum (py_compile code), record (Ev_compile code) w).

Definition exec `{Host} (ast : code_object) (scope : gmap string value)
    : M (gmap string value) :=
  fun w =>
    let '(r, x) := py_exec ast scope (w_ext w) in
    (of_sum r, record Ev_exec (with_ext x w)).

Definition call `{Host} (f : value) : M value :=
  fun w =>
    let '(r, x) := py_call f (w_ext w) in
    (of_sum r, record Ev_call (with_ext x w)).

(** [v.Html(tag="div")]: a widget nobody holds yet; the result is its
    number. *)
Definition new_box `{Host} : M nat :=
  fun w =>
    (Ok (w_boxes w),
     World _ (w_ext w) (S (w_boxes w)) (w_mounted w) (w_log w) (w_trace w)).

(** [solara.render(tree, container=box)]. *)
Definition render `{Host} (tree : element value) (box : nat) : M unit :=
  fun w =>
    let '(r, x) := solara_render tree box (w_ext w) in
    match r with
    | inl e => (Raise e, record (Ev_render box) (with_ext x w))
    | inr _ =>
        (Ok tt,
         World _ x (w_boxes w) ((box, tree) :: w_mounted w) (w_log w)
           (Ev_render box :: w_trace w))
    end.

(** [logger.exception(message, ...)] while handling [e]. *)
Definition logger_exception `{Host} (message : string) (e : exn) : M unit :=
  fun w =>
    (Ok tt,
     World _ (w_ext w) (w_boxes w) (w_mounted w)
       (Log_error message e :: w_log w) (w_trace w)).

(** ** The functions of markdown.py *)

Definition _run_solara `{Host} (code : string) : M string :=
  ast <- compile code ;;
  local_scope <- exec ast ∅ ;;
  app <- match local_scope !! "app" with
         | Some a => ret (El_obj a)
         | None =>
             match local_scope !! "Page" with
             | Some Page =>
                 page <- call Page ;;
                 ret (El_AppLayoutEmbed [El_ExceptionGuard [El_obj page]])
             | None => raise (NameError "No Page of app defined")
             end
         end ;;
  box <- new_box ;;
  _ <- render app box ;;
  let widget_id := model_id box in
  ret (widget_markup widget_id).

Definition _highlight `{Host} (src language : string)
    (unsafe_solara_execute : bool) (extra : string) : M string :=
  let run_src_with_solara := String.eqb language "solara" in
  let language := if run_src_with_solara then "python" else language in
  lexer <- get_lexer_by_name language ;;
  let html := pygments_highlight src lexer in
  if run_src_with_solara then
    if unsafe_solara_execute then
      html_widget <- _run_solara src ;;
      ret (html +:+ html_widget)
    else ret (html +:+ html_no_execute_enabled)
  else ret html.

(** Modelled from the spec: the Markdown engines are libraries outside
    src/; "a fenced-block interceptor invoked once per fenced block in
    document order", and "all snippets substituted back into the token
    stream" give the final HTML.  [fence body lang attrs] is the
    interceptor. *)
Fixpoint render_tokens `{Host} (fence : string -> string -> string -> M string)
    (tokens : list token) : M string :=
  match tokens with
  | [] => ret EmptyString
  | Html s :: rest =>
      tail <- render_tokens fence rest ;;
      ret (s +:+ tail)
  | Fence lang attrs body :: rest =>
      fragment <- fence body lang attrs ;;
      tail <- render_tokens fence rest ;;
      ret (fragment +:+ tail)
  end.

(** What a component returns: [VuetifyTemplate.element(template=...)]
    with its [.key(...)]. *)
Record vue_element := Vue {
  template : string;
  key : string
}.

(** The local [html] of [MarkdownIt]. *)
Definition MarkdownIt_html `{Host} (md_text : string)
    (unsafe_solara_execute : bool) : M string :=
  let md_text := dedent md_text in
  let highlight_code code name attrs :=
    _highlight code name unsafe_solara_execute attrs in
  render_tokens highlight_code (markdown_it_parse md_text).

(** The text that [MarkdownIt] hashes. *)
Definition MarkdownIt_key_text (html : string) (highlight : list Z)
    (unsafe_solara_execute : bool) : string :=
  html +:+ str_bool unsafe_solara_execute +:+ repr_list highlight.

Definition MarkdownIt `{Host} (md_text : string) (highlight : list Z)
    (unsafe_solara_execute : bool) : M vue_element :=
  html <- MarkdownIt_html md_text unsafe_solara_execute ;;
  let hash :=
    sha256_hexdigest (MarkdownIt_key_text html highlight unsafe_solara_execute) in
  ret (Vue (_markdown_template html EmptyString) hash).

(** The local [highlight] of [Markdown.make_markdown_object]. *)
Definition Markdown_highlight `{Host} (unsafe_solara_execute : bool)
    (src language extra : string) : M string :=
  try_except (_highlight src language unsafe_solara_execute extra)
    (fun e =>
       _ <- logger_exception ("Error highlighting code: " +:+ src) e ;;
       ret (repr_exn e)).

(** The [custom_fences] of [Markdown]: [mermaid] goes to
    [fence_div_format], [solara] to [highlight] with an empty class, and
    any other fence stays with superfences. *)
Definition custom_fences `{Host} (highlight : string -> string -> string -> M string)
    (body lang attrs : string) : M string :=
  if String.eqb lang "mermaid" then ret (fence_div_format body lang attrs)
  else if String.eqb lang "solara" then highlight body lang EmptyString
  else ret (superfences_highlight body lang attrs).

(** The local [html] of [Markdown]. *)
Definition Markdown_html `{Host} (md_text : string)
    (unsafe_solara_execute : bool) : M string :=
  let md_text := dedent md_text in
  render_tokens (custom_fences (Markdown_highlight unsafe_solara_execute))
    (markdown_parse md_text).

(** The text that [Markdown] hashes. *)
Definition Markdown_key_text (html : string) (unsafe_solara_execute : bool) : string :=
  html +:+ str_bool unsafe_solara_execute.

Definition Markdown `{Host} (md_text : string) (unsafe_solara_execute : bool)
    (style : style_arg) : M vue_element :=
  let style := _flatten_style style in
  html <- Markdown_html md_text unsafe_solara_execute ;;
  let hash := sha256_hexdigest (Markdown_key_text html unsafe_solara_execute) in
  ret (Vue (_markdown_template html style) hash).

(** ** Reading back [repr] of a list of ints *)

(** The characters [repr] of an int is made of. *)
Definition is_num_char (c : ascii) : bool :=
  Ascii.eqb c "-" ||
  ((48 <=? nat_of_ascii c) && (nat_of_ascii c <=? 57)).

Fixpoint all_num (s : string) : bool :=
  match s with
  | EmptyString => true
  | String c s' => is_num_char c && all_num s'
  end.

(** [r] is empty or begins with a character that ends a number. *)
Definition stops (r : string) : bool :=
  match r with
  | EmptyString => true
  | String c _ => negb (is_num_char c)
  end.

(** What follows the first item in [repr] of a list, before the closing
    bracket. *)
Definition items_tail (l : list Z) : string :=
  match l with
  | [] => EmptyString
  | _ => ", " +:+ join_comma (map repr_int l)
  end.

(** ** Predicates on documents and worlds *)

(** A fence with the reserved tag [solara]. *)
Definition is_live (tok : token) : bool :=
  match tok with
  | Fence lang _ _ => String.eqb lang "solara"
  | Html _ => false
  end.

(** No fence of the document carries the tag [solara]. *)
Definition no_live_fence (tokens : list token) : bool :=
  forallb (fun tok => negb (is_live tok)) tokens.

(** The engine's own markup holds no widget reference, whole or begun. *)
Definition markup_clear (tokens : list token) : bool :=
  forallb (fun tok =>
    match tok with
    | Html s => tag_clear widget_tag s
    | Fence _ _ _ => true
    end) tokens.

(** Every container that holds a tree was created before. *)
Definition boxes_allocated `{Host} (w : world) : Prop :=
  Forall (fun m => fst m < w_boxes w) (w_mounted w).

(** Two distinct texts with one digest. *)
Definition digest_collision `{Host} (t1 t2 : string) : Prop :=
  t1 <> t2 /\ sha256_hexdigest t1 = sha256_hexdigest t2.

(** ** A small host, to run the definitions on concrete documents *)

Module Demo.

(** Lines between a line that opens with three backquotes and the next
    line that is three backquotes form a fence; any other line is a
    paragraph. *)
Fixpoint tokens_of_lines (open : option (string * list string))
    (lines : list string) : list token :=
  match lines with
  | [] => []
  | l :: rest =>
      match open with
      | None =>
          if startswith l "```" then tokens_of_lines (Some (drop_chars 3 l, [])) rest
          else Html ("<p>" +:+ escapeHtml l +:+ "</p>" +:+ nl) :: tokens_of_lines None rest
      | Some (lang, body) =>
          if String.eqb l "```"
          then Fence lang EmptyString (join_lines (rev body)) :: tokens_of_lines None rest
          else tokens_of_lines (Some (lang, l :: body)) rest
      end
  end.

Definition parse (text : string) : list token :=
  tokens_of_lines None (split_lines text).

(** The programs the demo interpreter knows; each run adds one to the
    outside counter. *)
Definition run (code : string) (scope : gmap string Z) (x : nat)
    : (exn + gmap string Z) * nat :=
  if String.eqb code "app = 1" then (inr (<["app" := 1%Z]> scope), S x)
  else if String.eqb code "Page = 2" then (inr (<["Page" := 2%Z]> scope), S x)
  else if String.eqb code "x = 3" then (inr (<["x" := 3%Z]> scope), S x)
  else (inl (exn_of_message "ZeroDivisionError" "division by zero" true), S x).

Definition pre (src : string) (lx : string) : string :=
  "<div class=" +:+ dq +:+ "highlight" +:+ dq +:+ "><pre>" +:+ escapeHtml src
    +:+ "</pre></div>" +:+ nl.

Definition flatten (style : style_arg) : string :=
  match style with
  | Style_none => EmptyString
  | Style_str css => css
  | Style_dict items =>
      String.concat ";" (map (fun kv => fst kv +:+ ":" +:+ snd kv) items)
  end.

#[export] Instance host : Host := {|
  value := Z;
  ext := nat;
  lexer := string;
  code_object := string;
  lexers := fun alias =>
    if String.eqb alias "python" || String.eqb alias "text" then Some alias else None;
  pygments_highlight := pre;
  py_compile := fun code => inr code;
  py_exec := run;
  py_call := fun f x => (inr f, x);
  solara_render := fun _ _ x => (inr tt, x);
  model_id := fun n => "w" +:+ pretty n;
  sha256_hexdigest := fun text => text;
  _flatten_style := flatten;
  markdown_it_parse := parse;
  markdown_parse := parse;
  fence_div_format := fun body lang attrs =>
    "<div class=" +:+ dq +:+ "mermaid" +:+ dq +:+ ">" +:+ escapeHtml body +:+ "</div>";
  superfences_highlight := fun body lang attrs => pre body lang
|}.

Definition w0 : world := World host 0 0 [] [] [].

Definition fenced (lang body : string) : string :=
  "```" +:+ lang +:+ nl +:+ body +:+ nl +:+ "```".

(** A live fence that binds neither [app] nor [Page]. *)
Definition doc_no_entry : string := fenced "solara" "x = 3".

(** A fence whose tag has no lexer. *)
Definition doc_unknown : string := fenced "brainfuck9000" "++".

(** A paragraph and an ordinary fence. *)
Definition doc_plain : string := "hi" +:+ nl +:+ fenced "python" "x = 3".

(** A paragraph and a live fence. *)
Definition doc_live : string := "hi" +:+ nl +:+ fenced "solara" "app = 1".

End Demo.

(** ** Counting what a render did *)

(** The codes handed to [compile], newest first, as the trace holds them. *)
Fixpoint compiled_codes (trace : list event) : list string :=
  match trace with
  | [] => []
  | Ev_compile code :: rest => code :: compiled_codes rest
  | _ :: rest => compiled_codes rest
  end.

(** Number of times [exec] was entered. *)
Fixpoint exec_count (trace : list event) : nat :=
  match trace with
  | [] => 0
  | Ev_exec :: rest => S (exec_count rest)
  | _ :: rest => exec_count rest
  end.


(** The numbers of the containers that hold a tree are pairwise distinct
    and were all handed out already. *)
Definition mounted_ok `{Host} (w : world) : Prop :=
  boxes_allocated w /\ NoDup (map fst (w_mounted w)).

(** ** A host in which things go wrong *)

Module Faulty.

(** What [compile] raises for the text [1 +]: an exception with two
    arguments and a [str] of its own. *)
Definition syntax_error : exn :=
  Exn "SyntaxError" "SyntaxError('invalid syntax', ('markdown', 1, 4, '1 +', 1, 4))"
    "invalid syntax (markdown, line 1)" true.

(** An exception outside [Exception], built without argument. *)
Definition system_exit : exn := Exn "SystemExit" "SystemExit()" EmptyString false.

(** The text [1 +] does not compile. *)
Definition compile_or_fail (code : string) : exn + string :=
  if String.eqb code "1 +" then inl syntax_error else inr code.

(** [raise SystemExit] raises an exception outside [Exception]; any other
    program runs as in [Demo]. *)
Definition run (code : string) (scope : gmap string Z) (x : nat)
    : (exn + gmap string Z) * nat :=
  if String.eqb code "raise SystemExit" then (inl system_exit, S x)
  else Demo.run code scope x.

(** No lexer is registered at all. *)
#[export] Instance host : Host := {|
  value := Z;
  ext := nat;
  lexer := string;
  code_object := string;
  lexers := fun _ => None;
  pygments_highlight := Demo.pre;
  py_compile := compile_or_fail;
  py_exec := run;
  py_call := fun f x => (inr f, x);
  solara_render := fun _ _ x => (inr tt, x);
  model_id := fun n => "w" +:+ pretty n;
  sha256_hexdigest := fun text => text;
  _flatten_style := Demo.flatten;
  markdown_it_parse := Demo.parse;
  markdown_parse := Demo.parse;
  fence_div_format := fun body lang attrs => body;
  superfences_highlight := fun body lang attrs => Demo.pre body lang
|}.

Definition w0 : world := World host 0 0 [] [] [].

End Faulty.

(** A host like [Demo] whose interpreter can raise [SystemExit]. *)
Module Exiting.

#[export] Instance host : Host := {|
  value := Z;
  ext := nat;
  lexer := string;
  code_object := string;
  lexers := fun alias => if String.eqb alias "python" then Some alias else None;
  pygments_highlight := Demo.pre;
  py_compile := fun code => inr code;
  py_exec := Faulty.run;
  py_call := fun f x => (inr f, x);
  solara_render := fun _ _ x => (inr tt, x);
  model_id := fun n => "w" +:+ pretty n;
  sha256_hexdigest := fun text => text;
  _flatten_style := Demo.flatten;
  markdown_it_parse := Demo.parse;
  markdown_parse := Demo.parse;
  fence_div_format := fun body lang attrs => body;
  superfences_highlight := fun body lang attrs => Demo.pre body lang
|}.

Definition w0 : world := World host 0 0 [] [] [].

End Exiting.

(** ** A host whose engine lets raw HTML through *)

(** [MarkdownIt] builds its engine with the option [html] set (line 153),
    and python-markdown keeps raw HTML by default: an HTML block of the
    document goes into the output as it is. *)
Module Raw.

(** As [Demo.tokens_of_lines], but a line outside a fence that begins with
    [<] is an HTML block and is kept as it is. *)
Fixpoint tokens_of_lines (open : option (string * list string))
    (lines : list string) : list token :=
  match lines with
  | [] => []
  | l :: rest =>
      match open with
      | None =>
          if startswith l "```" then tokens_of_lines (Some (drop_chars 3 l, [])) rest
          else if startswith l "<" then Html (l +:+ nl) :: tokens_of_lines None rest
          else Html ("<p>" +:+ escapeHtml l +:+ "</p>" +:+ nl) :: tokens_of_lines None rest
      | Some (lang, body) =>
          if String.eqb l "```"
          then Fence lang EmptyString (join_lines (rev body)) :: tokens_of_lines None rest
          else tokens_of_lines (Some (lang, l :: body)) rest
      end
  end.

Definition parse (text : string) : list token :=
  tokens_of_lines None (split_lines text).

#[export] Instance host : Host := {|
  value := Z;
  ext := nat;
  lexer := string;
  code_object := string;
  lexers := fun alias =>
    if String.eqb alias "python" || String.eqb alias "text" then Some alias else None;
  pygments_highlight := Demo.pre;
  py_compile := fun code => inr code;
  py_exec := Demo.run;
  py_call := fun f x => (inr f, x);
  solara_render := fun _ _ x => (inr tt, x);
  model_id := fun n => "w" +:+ pretty n;
  sha256_hexdigest := fun text => text;
  _flatten_style := Demo.flatten;
  markdown_it_parse := parse;
  markdown_parse := parse;
  fence_div_format := fun body lang attrs => body;
  superfences_highlight := fun body lang attrs => Demo.pre body lang
|}.

Definition w0 : world := World host 0 0 [] [] [].

(** A line of raw HTML that is a widget reference. *)
Definition widget_line : string :=
  "<jupyter-widget widget=" +:+ dq +:+ "IPY_MODEL_abc" +:+ dq +:+ "></jupyter-widget>".


(** The same line, followed by a live fence. *)
Definition doc_raw_live : string := widget_line +:+ nl +:+ Demo.fenced "solara" "app = 1".

End Raw.

(** * Properties *)

(** ** Strings *)

Lemma append_cons c a b : String c a +:+ b = String c (a +:+ b).
Proof. reflexivity. Qed.

Lemma append_nil_l a : EmptyString +:+ a = a.
Proof. reflexivity. Qed.

Lemma append_nil_r a : a +:+ EmptyString = a.
Proof. induction a as [|c a IH]; [reflexivity|]. rewrite append_cons, IH. reflexivity. Qed.

Lemma append_assoc a b c : (a +:+ b) +:+ c = a +:+ b +:+ c.
Proof.
  induction a as [|x a IH]; [reflexivity|].
  rewrite !append_cons, IH. reflexivity.
Qed.

Lemma prefix_nil s : String.prefix EmptyString s = true.
Proof. destruct s; reflexivity. Qed.

Lemma prefix_cons x a y b :
  String.prefix (String x a) (String y b) = Ascii.eqb x y && String.prefix a b.
Proof.
  simpl. destruct (ascii_dec x y) as [->|Hne].
  - rewrite Ascii.eqb_refl. reflexivity.
  - apply Ascii.eqb_neq in Hne. rewrite Hne. reflexivity.
Qed.

Lemma prefix_refl s : String.prefix s s = true.
Proof.
  induction s as [|c s IH]; [reflexivity|].
  rewrite prefix_cons, Ascii.eqb_refl. exact IH.
Qed.

Lemma prefix_append t a b :
  String.prefix t a = true -> String.prefix t (a +:+ b) = true.
Proof.
  revert a. induction t as [|x t IH]; intros a Ht; [apply prefix_nil|].
  destruct a as [|y a]; [discriminate|].
  rewrite append_cons, prefix_cons. rewrite prefix_cons in Ht.
  apply andb_true_iff in Ht as [-> Ht]. simpl. auto.
Qed.

Lemma prefix_self_append a b : String.prefix a (a +:+ b) = true.
Proof. apply prefix_append, prefix_refl. Qed.

(** A beginning of [a +:+ b] lies inside [a] or runs over the end of [a]. *)
Lemma prefix_append_split t a b :
  String.prefix t (a +:+ b) = true ->
  String.prefix t a = true \/ String.prefix a t = true.
Proof.
  revert a. induction t as [|x t IH]; intros a Ht.
  - left. apply prefix_nil.
  - destruct a as [|y a]; [right; reflexivity|].
    rewrite append_cons, prefix_cons in Ht.
    apply andb_true_iff in Ht as [Hxy Ht].
    apply Ascii.eqb_eq in Hxy as ->.
    rewrite !prefix_cons, Ascii.eqb_refl. simpl. auto.
Qed.

Lemma prefix_of_append a b t :
  String.prefix (a +:+ b) t = true -> String.prefix a t = true.
Proof.
  revert t. induction a as [|x a IH]; intros t Ht; [apply prefix_nil|].
  destruct t as [|y t]; [discriminate|].
  rewrite append_cons, prefix_cons in Ht. rewrite prefix_cons.
  apply andb_true_iff in Ht as [-> Ht]. simpl. eauto.
Qed.

Lemma prefix_append_same p a b :
  String.prefix (p +:+ a) (p +:+ b) = String.prefix a b.
Proof.
  induction p as [|x p IH]; [reflexivity|].
  rewrite !append_cons, prefix_cons, Ascii.eqb_refl. exact IH.
Qed.

(** ** Scanning for a tag *)

Lemma tag_clear_cons t x s :
  tag_clear t (String x s) =
  negb (String.prefix t (String x s)) && negb (String.prefix (String x s) t)
    && tag_clear t s.
Proof. reflexivity. Qed.

Lemma occurrences_cons t x s :
  occurrences t (String x s) =
  (if String.prefix t (String x s) then 1 else 0) + occurrences t s.
Proof. reflexivity. Qed.

Lemma contains_cons t x s :
  contains t (String x s) = String.prefix t (String x s) || contains t s.
Proof. reflexivity. Qed.

Lemma tag_clear_prefix_false t x s :
  tag_clear t (String x s) = true ->
  forall b, String.prefix t (String x s +:+ b) = false.
Proof.
  intros Hc b. rewrite tag_clear_cons in Hc.
  apply andb_true_iff in Hc as [Hc _]. apply andb_true_iff in Hc as [H1 H2].
  apply negb_true_iff in H1, H2.
  destruct (String.prefix t (String x s +:+ b)) eqn:E; [|reflexivity].
  apply prefix_append_split in E as [E|E]; congruence.
Qed.

Lemma tag_clear_append t a b :
  tag_clear t a = true -> tag_clear t b = true -> tag_clear t (a +:+ b) = true.
Proof.
  intros Ha Hb. induction a as [|x a IH]; [exact Hb|].
  pose proof (tag_clear_prefix_false t x a Ha b) as Hp.
  rewrite tag_clear_cons in Ha.
  apply andb_true_iff in Ha as [Ha Ha']. apply andb_true_iff in Ha as [H1 H2].
  apply negb_true_iff in H2.
  rewrite append_cons in *. rewrite tag_clear_cons, (IH Ha'), andb_true_r.
  apply andb_true_iff. split; apply negb_true_iff; [exact Hp|].
  destruct (String.prefix (String x (a +:+ b)) t) eqn:E; [|reflexivity].
  rewrite <- append_cons in E. apply prefix_of_append in E. congruence.
Qed.

Lemma occurrences_clear_append t a b :
  tag_clear t a = true -> occurrences t (a +:+ b) = occurrences t b.
Proof.
  intros Ha. induction a as [|x a IH]; [reflexivity|].
  pose proof (tag_clear_prefix_false t x a Ha b) as Hp.
  rewrite tag_clear_cons in Ha. apply andb_true_iff in Ha as [_ Ha'].
  rewrite append_cons in *. rewrite occurrences_cons, Hp, (IH Ha'). reflexivity.
Qed.

Lemma occurrences_clear t s :
  t <> EmptyString -> tag_clear t s = true -> occurrences t s = 0.
Proof.
  intros Ht Hs. rewrite <- (append_nil_r s), (occurrences_clear_append t s _ Hs).
  destruct t; [congruence|reflexivity].
Qed.

Lemma tag_clear_not_contains t s :
  t <> EmptyString -> tag_clear t s = true -> contains t s = false.
Proof.
  intros Ht. induction s as [|x s IH]; intros Hs.
  - destruct t; [congruence|reflexivity].
  - rewrite tag_clear_cons in Hs.
    apply andb_true_iff in Hs as [Hs Hs']. apply andb_true_iff in Hs as [H1 _].
    apply negb_true_iff in H1. rewrite contains_cons, H1, (IH Hs'). reflexivity.
Qed.

Lemma tag_clear_absent t s :
  t <> EmptyString -> tag_clear t s = true ->
  contains t s = false /\ occurrences t s = 0.
Proof.
  intros Ht Hs. split; [apply tag_clear_not_contains|apply occurrences_clear]; assumption.
Qed.

Lemma contains_append_l t a b : contains t a = true -> contains t (a +:+ b) = true.
Proof.
  induction a as [|x a IH]; intros H.
  - destruct t; [|discriminate]. destruct b; reflexivity.
  - rewrite append_cons, contains_cons. rewrite contains_cons in H.
    apply orb_true_iff in H as [H|H]; apply orb_true_iff.
    + left. rewrite <- append_cons. apply prefix_append, H.
    + right. auto.
Qed.

Lemma contains_append_r t a b : contains t b = true -> contains t (a +:+ b) = true.
Proof.
  intros H. induction a as [|x a IH]; [exact H|].
  rewrite append_cons, contains_cons, IH. apply orb_true_r.
Qed.

Lemma contains_prefix t s : String.prefix t s = true -> contains t s = true.
Proof.
  intros H. destruct s as [|x s]; [cbn [contains]|rewrite contains_cons];
    rewrite H; reflexivity.
Qed.

Lemma contains_self_append t b : contains t (t +:+ b) = true.
Proof. apply contains_prefix, prefix_self_append. Qed.

(** ** The live-code executor *)

Ltac run_monad :=
  unfold bind, ret, raise, try_except, compile, exec, call, new_box, render,
    logger_exception, get_lexer_by_name, of_sum, record, with_ext; simpl.

Lemma run_solara_app `{Host} code w ast scope x a x' :
  py_compile code = inr ast ->
  py_exec ast ∅ (w_ext w) = (inr scope, x) ->
  scope !! "app" = Some a ->
  solara_render (El_obj a) (w_boxes w) x = (inr tt, x') ->
  _run_solara code w =
    (Ok (widget_markup (model_id (w_boxes w))),
     World _ x' (S (w_boxes w)) ((w_boxes w, El_obj a) :: w_mounted w) (w_log w)
       (Ev_render (w_boxes w) :: Ev_exec :: Ev_compile code :: w_trace w)).
Proof.
  intros Hc He Ha Hr. unfold _run_solara. run_monad.
  rewrite Hc, He. simpl. rewrite Ha. simpl. rewrite Hr. reflexivity.
Qed.

Lemma run_solara_page `{Host} code w ast scope x ctor page x1 x' :
  py_compile code = inr ast ->
  py_exec ast ∅ (w_ext w) = (inr scope, x) ->
  scope !! "app" = None ->
  scope !! "Page" = Some ctor ->
  py_call ctor x = (inr page, x1) ->
  solara_render (El_AppLayoutEmbed [El_ExceptionGuard [El_obj page]])
    (w_boxes w) x1 = (inr tt, x') ->
  _run_solara code w =
    (Ok (widget_markup (model_id (w_boxes w))),
     World _ x' (S (w_boxes w))
       ((w_boxes w, El_AppLayoutEmbed [El_ExceptionGuard [El_obj page]]) :: w_mounted w)
       (w_log w)
       (Ev_render (w_boxes w) :: Ev_call :: Ev_exec :: Ev_compile code :: w_trace w)).
Proof.
  intros Hc He Ha Hp Hcall Hr. unfold _run_solara. run_monad.
  rewrite Hc, He. simpl. rewrite Ha, Hp. simpl. rewrite Hcall. simpl.
  rewrite Hr. reflexivity.
Qed.

Lemma run_solara_no_entry `{Host} code w ast scope x :
  py_compile code = inr ast ->
  py_exec ast ∅ (w_ext w) = (inr scope, x) ->
  scope !! "app" = None ->
  scope !! "Page" = None ->
  _run_solara code w =
    (Raise (NameError "No Page of app defined"),
     World _ x (w_boxes w) (w_mounted w) (w_log w)
       (Ev_exec :: Ev_compile code :: w_trace w)).
Proof.
  intros Hc He Ha Hp. unfold _run_solara. run_monad.
  rewrite Hc, He. simpl. rewrite Ha, Hp. reflexivity.
Qed.

(** C3: [_run_solara] compiles the fence body and runs it in the empty
    scope.  When the scope then binds [app], that object is the tree that
    is mounted, whether or not [Page] is bound as well, and nothing is
    called.  When only [Page] is bound, it is called with no argument and
    the result is mounted inside [_AppLayoutEmbed] and [ExceptionGuard].
    [ExceptionGuard] shows its single child while no exception is
    pending, and the error with its details once one is. *)
Theorem run_solara_entry_point `{Host} (code : string) (w : world)
    (ast : code_object) (scope : gmap string value) (x : ext) :
  py_compile code = inr ast ->
  py_exec ast ∅ (w_ext w) = (inr scope, x) ->
  (forall a x',
      scope !! "app" = Some a ->
      solara_render (El_obj a) (w_boxes w) x = (inr tt, x') ->
      fst (_run_solara code w) = Ok (widget_markup (model_id (w_boxes w))) /\
      w_mounted (snd (_run_solara code w)) = (w_boxes w, El_obj a) :: w_mounted w /\
      w_trace (snd (_run_solara code w)) =
        Ev_render (w_boxes w) :: Ev_exec :: Ev_compile code :: w_trace w) /\
  (forall ctor page x1 x',
      scope !! "app" = None ->
      scope !! "Page" = Some ctor ->
      py_call ctor x = (inr page, x1) ->
      solara_render (El_AppLayoutEmbed [El_ExceptionGuard [El_obj page]])
        (w_boxes w) x1 = (inr tt, x') ->
      fst (_run_solara code w) = Ok (widget_markup (model_id (w_boxes w))) /\
      w_mounted (snd (_run_solara code w)) =
        (w_boxes w, El_AppLayoutEmbed [El_ExceptionGuard [El_obj page]]) :: w_mounted w /\
      w_trace (snd (_run_solara code w)) =
        Ev_render (w_boxes w) :: Ev_call :: Ev_exec :: Ev_compile code :: w_trace w) /\
  (forall child : element value, ExceptionGuard None [child] = Guard_child child) /\
  (forall e (children : list (element value)),
      ExceptionGuard (Some e) children =
        Guard_error ("Oops, an error occurred: " +:+ str_exn e) "Exception details" e).
Proof.
  intros Hc He. split; [|split; [|split]].
  - intros a x' Ha Hr. rewrite (run_solara_app _ _ _ _ _ _ _ Hc He Ha Hr). auto.
  - intros ctor page x1 x' Ha Hp Hcall Hr.
    rewrite (run_solara_page _ _ _ _ _ _ _ _ _ Hc He Ha Hp Hcall Hr). auto.
  - reflexivity.
  - reflexivity.
Qed.

(** ** The fence handler *)

Lemma highlight_plain `{Host} src language unsafe extra w :
  language <> "solara" ->
  _highlight src language unsafe extra w =
    (match lexers language with
     | Some lx => Ok (pygments_highlight src lx)
     | None => Raise (ClassNotFound language)
     end, w).
Proof.
  intros Hl. unfold _highlight. apply String.eqb_neq in Hl. rewrite Hl.
  run_monad. destruct (lexers language); reflexivity.
Qed.

Lemma highlight_live_disabled `{Host} src extra w :
  _highlight src "solara" false extra w =
    (match lexers "python" with
     | Some lx => Ok (pygments_highlight src lx +:+ html_no_execute_enabled)
     | None => Raise (ClassNotFound "python")
     end, w).
Proof.
  unfold _highlight. run_monad. destruct (lexers "python"); reflexivity.
Qed.

Lemma highlight_live_enabled `{Host} src extra w lx :
  lexers "python" = Some lx ->
  _highlight src "solara" true extra w =
    match _run_solara src w with
    | (Ok markup, w') => (Ok (pygments_highlight src lx +:+ markup), w')
    | (Raise e, w') => (Raise e, w')
    end.
Proof.
  intros Hl. unfold _highlight. run_monad. rewrite Hl.
  destruct (_run_solara src w) as [[markup|e] w']; reflexivity.
Qed.

(** The wrapper of [Markdown] turns what [_highlight] raises into a
    fragment, and leaves a record in the log. *)
Lemma Markdown_highlight_catches `{Host} unsafe src language extra w e w' :
  _highlight src language unsafe extra w = (Raise e, w') ->
  exn_is_Exception e = true ->
  Markdown_highlight unsafe src language extra w =
    (Ok (repr_exn e),
     World _ (w_ext w') (w_boxes w') (w_mounted w')
       (Log_error ("Error highlighting code: " +:+ src) e :: w_log w') (w_trace w')).
Proof.
  intros Hh He. unfold Markdown_highlight, try_except. rewrite Hh, He. reflexivity.
Qed.

Lemma Markdown_highlight_ok `{Host} unsafe src language extra w fragment w' :
  _highlight src language unsafe extra w = (Ok fragment, w') ->
  Markdown_highlight unsafe src language extra w = (Ok fragment, w').
Proof.
  intros Hh. unfold Markdown_highlight, try_except. rewrite Hh. reflexivity.
Qed.

(** ** Rendering a token list *)

Lemma render_tokens_app `{Host} fence a b w :
  render_tokens fence (a ++ b) w =
    match render_tokens fence a w with
    | (Ok ha, w1) =>
        match render_tokens fence b w1 with
        | (Ok hb, w2) => (Ok (ha +:+ hb), w2)
        | (Raise e, w2) => (Raise e, w2)
        end
    | (Raise e, w1) => (Raise e, w1)
    end.
Proof.
  revert w. induction a as [|[s|lang attrs body] a IH]; intros w; simpl.
  - destruct (render_tokens fence b w) as [[hb|e] w2]; reflexivity.
  - unfold bind, ret. rewrite IH.
    destruct (render_tokens fence a w) as [[ha|e] w1]; [|reflexivity].
    destruct (render_tokens fence b w1) as [[hb|e] w2]; [|reflexivity].
    rewrite append_assoc. reflexivity.
  - unfold bind, ret. destruct (fence body lang attrs w) as [[fr|e] w0]; [|reflexivity].
    rewrite IH.
    destruct (render_tokens fence a w0) as [[ha|e] w1]; [|reflexivity].
    destruct (render_tokens fence b w1) as [[hb|e] w2]; [|reflexivity].
    rewrite append_assoc. reflexivity.
Qed.

Lemma render_tokens_fence `{Host} fence lang attrs body rest w :
  render_tokens fence (Fence lang attrs body :: rest) w =
    match fence body lang attrs w with
    | (Ok fr, w0) =>
        match render_tokens fence rest w0 with
        | (Ok tail, w1) => (Ok (fr +:+ tail), w1)
        | (Raise e, w1) => (Raise e, w1)
        end
    | (Raise e, w0) => (Raise e, w0)
    end.
Proof.
  cbn [render_tokens]. unfold bind, ret.
  destruct (fence body lang attrs w) as [[fr|e] w0]; [|reflexivity].
  destruct (render_tokens fence rest w0) as [[tail|e] w1]; reflexivity.
Qed.

(** When no fence of the list changes the world or depends on it, the
    rendering does neither. *)
Lemma render_tokens_quiet `{Host} fence tokens :
  (forall lang attrs body, In (Fence lang attrs body) tokens ->
     exists r, forall w, fence body lang attrs w = (r, w)) ->
  exists r, forall w, render_tokens fence tokens w = (r, w).
Proof.
  induction tokens as [|[s|lang attrs body] tokens IH]; intros Hq.
  - exists (Ok EmptyString). reflexivity.
  - destruct IH as [r Hr]; [intros; apply Hq; right; assumption|].
    exists (match r with Ok tail => Ok (s +:+ tail) | Raise e => Raise e end).
    intros w. simpl. unfold bind, ret. rewrite Hr. destruct r; reflexivity.
  - destruct IH as [r Hr]; [intros; apply Hq; right; assumption|].
    destruct (Hq lang attrs body) as [rf Hf]; [left; reflexivity|].
    exists (match rf with
            | Ok fr => match r with Ok tail => Ok (fr +:+ tail) | Raise e => Raise e end
            | Raise e => Raise e
            end).
    intros w. simpl. unfold bind, ret. rewrite Hf. destruct rf; [|reflexivity].
    rewrite Hr. destruct r; reflexivity.
Qed.

(** Fragments without a widget reference give a document without one. *)
Lemma render_tokens_clear `{Host} fence tokens :
  markup_clear tokens = true ->
  (forall lang attrs body, In (Fence lang attrs body) tokens ->
     forall w fr w', fence body lang attrs w = (Ok fr, w') ->
       tag_clear widget_tag fr = true) ->
  forall w html w', render_tokens fence tokens w = (Ok html, w') ->
    tag_clear widget_tag html = true.
Proof.
  induction tokens as [|[s|lang attrs body] tokens IH]; intros Hm Hf w html w' Hr.
  - simpl in Hr. unfold ret in Hr. inversion Hr. reflexivity.
  - cbn [markup_clear forallb] in Hm. apply andb_true_iff in Hm as [Hs Hm].
    simpl in Hr. unfold bind, ret in Hr.
    destruct (render_tokens fence tokens w) as [[tail|e] w1] eqn:E; inversion Hr; subst.
    apply tag_clear_append; [exact Hs|].
    eapply IH; [exact Hm| |exact E]. intros; eapply Hf; [right|]; eassumption.
  - cbn [markup_clear forallb] in Hm. apply andb_true_iff in Hm as [_ Hm].
    simpl in Hr. unfold bind, ret in Hr.
    destruct (fence body lang attrs w) as [[fr|e] w0] eqn:F; [|inversion Hr].
    destruct (render_tokens fence tokens w0) as [[tail|e] w1] eqn:E; inversion Hr; subst.
    apply tag_clear_append.
    + eapply Hf; [left; reflexivity|exact F].
    + eapply IH; [exact Hm| |exact E]. intros; eapply Hf; [right|]; eassumption.
Qed.

(** A fragment that holds [t] puts [t] into the document. *)
Lemma render_tokens_contains `{Host} fence tokens t lang attrs body :
  In (Fence lang attrs body) tokens ->
  (forall w fr w', fence body lang attrs w = (Ok fr, w') -> contains t fr = true) ->
  forall w html w', render_tokens fence tokens w = (Ok html, w') ->
    contains t html = true.
Proof.
  intros Hin Hf. induction tokens as [|tok tokens IH]; [destruct Hin|].
  intros w html w' Hr. destruct tok as [s|lang0 attrs0 body0].
  - destruct Hin as [Heq|Hin]; [discriminate|].
    simpl in Hr. unfold bind, ret in Hr.
    destruct (render_tokens fence tokens w) as [[tail|e] w1] eqn:E; inversion Hr; subst.
    apply contains_append_r. eapply IH; eassumption.
  - simpl in Hr. unfold bind, ret in Hr.
    destruct (fence body0 lang0 attrs0 w) as [[fr|e] w0] eqn:F; [|inversion Hr].
    destruct (render_tokens fence tokens w0) as [[tail|e] w1] eqn:E; inversion Hr; subst.
    destruct Hin as [Heq|Hin].
    + inversion Heq; subst. apply contains_append_l. eapply Hf; exact F.
    + apply contains_append_r. eapply IH; eassumption.
Qed.

(** ** A live fence without an entry point *)

(** C1, as the code has it: with execution enabled, a live fence whose
    code binds neither [app] nor [Page] makes [_run_solara] raise
    [NameError('No Page of app defined')].  [MarkdownIt] has no handler,
    so the exception leaves the render call.  [Markdown] wraps the fence
    handler in [try ... except Exception]: the exception is logged, its
    [repr] becomes the fragment of the fence, and the render goes on with
    the rest of the document. *)
Theorem no_entry_point_by_component `{Host} (pre post : list token)
    (attrs body : string) (w w1 : world) (h1 : string) (lx : lexer)
    (ast : code_object) (scope : gmap string value) (x : ext) :
  lexers "python" = Some lx ->
  py_compile body = inr ast ->
  py_exec ast ∅ (w_ext w1) = (inr scope, x) ->
  scope !! "app" = None ->
  scope !! "Page" = None ->
  fst (_run_solara body w1) = Raise (NameError "No Page of app defined") /\
  (forall text highlight,
      markdown_it_parse (dedent text) = pre ++ Fence "solara" attrs body :: post ->
      render_tokens (fun code name a => _highlight code name true a) pre w = (Ok h1, w1) ->
      fst (MarkdownIt text highlight true w) = Raise (NameError "No Page of app defined")) /\
  (exists w1',
      Markdown_highlight true body "solara" EmptyString w1 =
        (Ok "NameError('No Page of app defined')", w1') /\
      w_log w1' =
        Log_error ("Error highlighting code: " +:+ body)
          (NameError "No Page of app defined") :: w_log w1 /\
      forall text style h2 w2,
        markdown_parse (dedent text) = pre ++ Fence "solara" attrs body :: post ->
        render_tokens (custom_fences (Markdown_highlight true)) pre w = (Ok h1, w1) ->
        render_tokens (custom_fences (Markdown_highlight true)) post w1' = (Ok h2, w2) ->
        exists hash,
          Markdown text true style w =
            (Ok (Vue (_markdown_template
                        (h1 +:+ "NameError('No Page of app defined')" +:+ h2)
                        (_flatten_style style)) hash), w2)).
Proof.
  intros Hl Hc He Ha Hp.
  pose proof (run_solara_no_entry _ _ _ _ _ Hc He Ha Hp) as Hrun.
  assert (Hhl : forall extra, _highlight body "solara" true extra w1 =
            (Raise (NameError "No Page of app defined"),
             World _ x (w_boxes w1) (w_mounted w1) (w_log w1)
               (Ev_exec :: Ev_compile body :: w_trace w1))).
  { intros extra. rewrite (highlight_live_enabled _ _ _ _ Hl), Hrun. reflexivity. }
  split; [rewrite Hrun; reflexivity|]. split.
  - intros text highlight Hparse Hpre.
    unfold MarkdownIt, MarkdownIt_html, bind.
    rewrite Hparse, render_tokens_app, Hpre, render_tokens_fence, Hhl. reflexivity.
  - eexists. split; [|split].
    + apply (Markdown_highlight_catches _ _ _ _ _ _ _ (Hhl EmptyString)). reflexivity.
    + reflexivity.
    + intros text style h2 w2 Hparse Hpre Hpost. eexists.
      unfold Markdown, Markdown_html, bind.
      rewrite Hparse, render_tokens_app, Hpre, render_tokens_fence.
      unfold custom_fences at 1. cbn [String.eqb Ascii.eqb Bool.eqb].
      rewrite (Markdown_highlight_catches _ _ _ _ _ _ _ (Hhl EmptyString) eq_refl).
      rewrite Hpost. reflexivity.
Qed.

(** C1 fails for [Markdown]: on a document whose only block is a live
    fence binding neither [app] nor [Page], the render with execution
    enabled returns normally, and the template carries the [repr] of the
    exception where the fence was. *)
Lemma no_entry_point_counterexample :
  markdown_parse (Host := Demo.host) (dedent Demo.doc_no_entry)
    = [Fence "solara" EmptyString "x = 3"] /\
  py_exec (Host := Demo.host) "x = 3" ∅ 0 = (inr {["x" := 3%Z]}, 1) /\
  ({["x" := 3%Z]} : gmap string Z) !! "app" = None /\
  ({["x" := 3%Z]} : gmap string Z) !! "Page" = None /\
  fst (Markdown (H := Demo.host) Demo.doc_no_entry true Style_none Demo.w0) =
    Ok (Vue (_markdown_template "NameError('No Page of app defined')" EmptyString)
          "NameError('No Page of app defined')True").
Proof. repeat split; vm_compute; reflexivity. Qed.

Lemma no_entry_point_by_component_witness :
  fst (MarkdownIt (H := Demo.host) Demo.doc_no_entry [] true Demo.w0) =
    Raise (NameError "No Page of app defined").
Proof.
  pose proof (no_entry_point_by_component (H := Demo.host) [] [] EmptyString "x = 3"
                Demo.w0 Demo.w0 EmptyString "python" "x = 3" {["x" := 3%Z]} 1
                eq_refl eq_refl eq_refl eq_refl eq_refl) as (_ & Hit & _).
  apply Hit; reflexivity.
Defined.

(** ** A fence whose language has no lexer *)

(** C5, as the code has it: for a tag without a registered lexer
    [_highlight] raises [ClassNotFound] and leaves the world as it was.
    [MarkdownIt] hands every fence to [_highlight] and has no handler, so
    the exception leaves the render call: there is no fallback fragment
    and nothing is logged.  In [Markdown] a fence whose tag is neither
    [solara] nor [mermaid] never reaches [_highlight]: superfences
    renders it, the module raises nothing and logs nothing for it, and
    the render goes on with the rest of the document. *)
Theorem unknown_language_by_component `{Host} (src language : string)
    (unsafe : bool) (w : world) :
  lexers language = None ->
  language <> "solara" ->
  (forall extra,
      _highlight src language unsafe extra w = (Raise (ClassNotFound language), w)) /\
  (forall pre post attrs text highlight h1 w0,
      markdown_it_parse (dedent text) = pre ++ Fence language attrs src :: post ->
      render_tokens (fun code name a => _highlight code name unsafe a) pre w0 = (Ok h1, w) ->
      MarkdownIt text highlight unsafe w0 = (Raise (ClassNotFound language), w)) /\
  (language <> "mermaid" ->
   (forall fence attrs,
       custom_fences fence src language attrs w =
         (Ok (superfences_highlight src language attrs), w)) /\
   (forall pre post attrs text h1 w0,
       markdown_parse (dedent text) = pre ++ Fence language attrs src :: post ->
       render_tokens (custom_fences (Markdown_highlight unsafe)) pre w0 = (Ok h1, w) ->
       Markdown_html text unsafe w0 =
         match render_tokens (custom_fences (Markdown_highlight unsafe)) post w with
         | (Ok h2, w2) =>
             (Ok (h1 +:+ superfences_highlight src language attrs +:+ h2), w2)
         | (Raise e, w2) => (Raise e, w2)
         end)).
Proof.
  intros Hl Hs.
  assert (Hh : forall extra,
            _highlight src language unsafe extra w = (Raise (ClassNotFound language), w)).
  { intros extra. rewrite (highlight_plain _ _ _ _ _ Hs), Hl. reflexivity. }
  split; [exact Hh|]. split.
  - intros pre post attrs text highlight h1 w0 Hparse Hpre.
    unfold MarkdownIt, MarkdownIt_html, bind.
    rewrite Hparse, render_tokens_app, Hpre, render_tokens_fence, Hh. reflexivity.
  - intros Hm.
    assert (Hc : forall fence attrs,
              custom_fences fence src language attrs w =
                (Ok (superfences_highlight src language attrs), w)).
    { intros fence attrs. unfold custom_fences.
      apply String.eqb_neq in Hm, Hs. rewrite Hm, Hs. reflexivity. }
    split; [exact Hc|].
    intros pre post attrs text h1 w0 Hparse Hpre. unfold Markdown_html.
    rewrite Hparse, render_tokens_app, Hpre, render_tokens_fence, Hc.
    destruct (render_tokens _ post w) as [[h2|e] w2]; reflexivity.
Qed.

(** C5 fails for [MarkdownIt].  The tag [brainfuck9000] has no lexer; on
    the document made of one fence with that tag and the source [++] the
    render raises [ClassNotFound]: it returns no fragment, and the world,
    with its log, is the one before the call. *)
Lemma unknown_language_counterexample :
  lexers (Host := Demo.host) "brainfuck9000" = None /\
  markdown_it_parse (Host := Demo.host) (dedent Demo.doc_unknown) =
    [Fence "brainfuck9000" EmptyString "++"] /\
  MarkdownIt (H := Demo.host) Demo.doc_unknown [] false Demo.w0 =
    (Raise (ClassNotFound "brainfuck9000"), Demo.w0).
Proof. repeat split; vm_compute; reflexivity. Qed.

Lemma unknown_language_by_component_witness :
  MarkdownIt (H := Demo.host) Demo.doc_unknown [] false Demo.w0 =
    (Raise (ClassNotFound "brainfuck9000"), Demo.w0).
Proof.
  pose proof (unknown_language_by_component (H := Demo.host) "++" "brainfuck9000"
                false Demo.w0 eq_refl) as Hthm.
  destruct Hthm as (_ & Hit & _); [discriminate|].
  apply (Hit [] [] EmptyString Demo.doc_unknown [] EmptyString Demo.w0); reflexivity.
Defined.

(** ** Execution disabled *)

Lemma highlight_disabled_quiet `{Host} src language extra :
  exists r, forall w, _highlight src language false extra w = (r, w).
Proof.
  destruct (String.eqb_spec language "solara") as [->|Hne].
  - eexists. intros w. apply highlight_live_disabled.
  - eexists. intros w. apply (highlight_plain _ _ _ _ _ Hne).
Qed.

Lemma highlight_plain_clear `{Host} src language unsafe extra w fr w' :
  (forall s l, tag_clear widget_tag (pygments_highlight s l) = true) ->
  language <> "solara" ->
  _highlight src language unsafe extra w = (Ok fr, w') ->
  tag_clear widget_tag fr = true.
Proof.
  intros Hp Hne Hh. rewrite (highlight_plain _ _ _ _ _ Hne) in Hh.
  destruct (lexers language); inversion Hh. apply Hp.
Qed.

Lemma highlight_disabled_clear `{Host} src language extra w fr w' :
  (forall s l, tag_clear widget_tag (pygments_highlight s l) = true) ->
  _highlight src language false extra w = (Ok fr, w') ->
  tag_clear widget_tag fr = true.
Proof.
  intros Hp Hh. destruct (String.eqb_spec language "solara") as [->|Hne].
  - rewrite highlight_live_disabled in Hh.
    destruct (lexers "python"); inversion Hh.
    apply tag_clear_append; [apply Hp|reflexivity].
  - eapply highlight_plain_clear; eassumption.
Qed.

(** With the lexer for Python registered, [Markdown] with execution
    disabled renders every token list and leaves the world as it was. *)
Lemma Markdown_tokens_disabled `{Host} lx tokens w :
  lexers "python" = Some lx ->
  exists html,
    render_tokens (custom_fences (Markdown_highlight false)) tokens w = (Ok html, w).
Proof.
  intros Hl. induction tokens as [|[s|lang attrs body] tokens [tail IH]].
  - eexists. reflexivity.
  - eexists. cbn [render_tokens]. unfold bind, ret. rewrite IH. reflexivity.
  - assert (exists fr, custom_fences (Markdown_highlight false) body lang attrs w
                       = (Ok fr, w)) as [fr Hf].
    { unfold custom_fences.
      destruct (String.eqb lang "mermaid"); [eexists; reflexivity|].
      destruct (String.eqb_spec lang "solara") as [->|_]; [|eexists; reflexivity].
      eexists. apply Markdown_highlight_ok.
      rewrite highlight_live_disabled, Hl. reflexivity. }
    eexists. rewrite render_tokens_fence, Hf, IH. reflexivity.
Qed.

Lemma custom_fences_disabled_clear `{Host} body lang attrs w fr w' :
  (forall s l, tag_clear widget_tag (pygments_highlight s l) = true) ->
  (forall b l a, tag_clear widget_tag (fence_div_format b l a) = true) ->
  (forall b l a, tag_clear widget_tag (superfences_highlight b l a) = true) ->
  lexers "python" <> None ->
  custom_fences (Markdown_highlight false) body lang attrs w = (Ok fr, w') ->
  tag_clear widget_tag fr = true.
Proof.
  intros Hp Hd Hs Hl Hf. unfold custom_fences in Hf.
  destruct (String.eqb lang "mermaid"); [inversion Hf; apply Hd|].
  destruct (String.eqb_spec lang "solara") as [->|_]; [|inversion Hf; apply Hs].
  unfold Markdown_highlight, try_except in Hf.
  rewrite highlight_live_disabled in Hf.
  destruct (lexers "python"); [|congruence].
  inversion Hf. apply tag_clear_append; [apply Hp|reflexivity].
Qed.

(** C2: with execution disabled, the handler answers a live fence with
    the highlighted source followed by the notice, and the world is the
    one before the call: nothing was compiled, nothing was run, no widget
    was created.  A render of either component leaves the world
    unchanged as well; a document with a live fence that renders holds
    the notice, and it holds no widget reference when the highlighter and
    the engine's own markup hold none. *)
Theorem execution_disabled_notice `{Host} (text : string) (w : world) (lx : lexer) :
  lexers "python" = Some lx ->
  (forall s l, tag_clear widget_tag (pygments_highlight s l) = true) ->
  (forall src extra,
      _highlight src "solara" false extra w =
        (Ok (pygments_highlight src lx +:+ html_no_execute_enabled), w)) /\
  (forall highlight, snd (MarkdownIt text highlight false w) = w) /\
  (forall html w',
      MarkdownIt_html text false w = (Ok html, w') ->
      ((exists attrs body,
          In (Fence "solara" attrs body) (markdown_it_parse (dedent text))) ->
       contains html_no_execute_enabled html = true) /\
      (markup_clear (markdown_it_parse (dedent text)) = true ->
       contains widget_tag html = false /\ occurrences widget_tag html = 0)) /\
  (forall style, snd (Markdown text false style w) = w) /\
  (exists html,
      Markdown_html text false w = (Ok html, w) /\
      ((exists attrs body,
          In (Fence "solara" attrs body) (markdown_parse (dedent text))) ->
       contains html_no_execute_enabled html = true) /\
      (markup_clear (markdown_parse (dedent text)) = true ->
       (forall b l a, tag_clear widget_tag (fence_div_format b l a) = true) ->
       (forall b l a, tag_clear widget_tag (superfences_highlight b l a) = true) ->
       contains widget_tag html = false /\ occurrences widget_tag html = 0)).
Proof.
  intros Hl Hp.
  assert (Hlive : forall src extra w0,
            _highlight src "solara" false extra w0 =
              (Ok (pygments_highlight src lx +:+ html_no_execute_enabled), w0)).
  { intros. rewrite highlight_live_disabled, Hl. reflexivity. }
  split; [intros; apply Hlive|]. split; [|split; [|split]].
  - intros highlight. unfold MarkdownIt, MarkdownIt_html, bind.
    destruct (render_tokens_quiet (fun code name a => _highlight code name false a)
                (markdown_it_parse (dedent text))) as [r Hr].
    { intros lang attrs body _. apply highlight_disabled_quiet. }
    rewrite Hr. destruct r; reflexivity.
  - intros html w' Hr. unfold MarkdownIt_html in Hr. split.
    + intros (attrs & body & Hin).
      eapply render_tokens_contains; [exact Hin| |exact Hr].
      intros w0 fr w0' Hf. cbv beta in Hf. rewrite Hlive in Hf. inversion Hf.
      apply contains_append_r, contains_prefix, prefix_refl.
    + intros Hm. apply tag_clear_absent; [discriminate|].
      eapply render_tokens_clear; [exact Hm| |exact Hr].
      intros lang attrs body _ w0 fr w0' Hf.
      eapply highlight_disabled_clear; [exact Hp|exact Hf].
  - intros style. unfold Markdown, Markdown_html, bind.
    destruct (Markdown_tokens_disabled lx (markdown_parse (dedent text)) w Hl) as [html Hr].
    rewrite Hr. reflexivity.
  - destruct (Markdown_tokens_disabled lx (markdown_parse (dedent text)) w Hl) as [html Hr].
    exists html. split; [exact Hr|]. split.
    + intros (attrs & body & Hin).
      eapply render_tokens_contains; [exact Hin| |exact Hr].
      intros w0 fr w0' Hf. unfold custom_fences in Hf. cbn [String.eqb Ascii.eqb Bool.eqb] in Hf.
      rewrite (Markdown_highlight_ok _ _ _ _ _ _ _ (Hlive body EmptyString w0)) in Hf.
      inversion Hf. apply contains_append_r, contains_prefix, prefix_refl.
    + intros Hm Hd Hs. apply tag_clear_absent; [discriminate|].
      eapply render_tokens_clear; [exact Hm| |exact Hr].
      intros lang attrs body _ w0 fr w0' Hf.
      eapply custom_fences_disabled_clear; try eassumption. congruence.
Qed.

Lemma char_free_append c a b :
  char_free c a = true -> char_free c b = true -> char_free c (a +:+ b) = true.
Proof.
  intros Ha Hb. induction a as [|x a IH]; [exact Hb|].
  rewrite append_cons. simpl in Ha |- *.
  apply andb_true_iff in Ha as [-> Ha]. simpl. auto.
Qed.

(** Text without the first character of a tag is clear of the tag. *)
Lemma char_free_tag_clear c t s :
  char_free c s = true -> tag_clear (String c t) s = true.
Proof.
  induction s as [|x s IH]; intros Hs; [reflexivity|].
  simpl in Hs. apply andb_true_iff in Hs as [Hx Hs].
  apply negb_true_iff in Hx.
  rewrite tag_clear_cons, !prefix_cons, (IH Hs), Hx, Ascii.eqb_sym, Hx. reflexivity.
Qed.

Lemma escapeHtml_lt_free s : char_free "<" (escapeHtml s) = true.
Proof.
  induction s as [|c s IH]; [reflexivity|].
  cbn [escapeHtml]. apply char_free_append; [|exact IH].
  destruct (Ascii.eqb c "&"); [reflexivity|].
  destruct (Ascii.eqb c "<") eqn:E; [reflexivity|].
  destruct (Ascii.eqb c ">"); [reflexivity|].
  destruct (Ascii.eqb c (ascii_of_nat 34)); [reflexivity|].
  simpl. rewrite E. reflexivity.
Qed.

Lemma demo_pre_clear s l : tag_clear widget_tag (Demo.pre s l) = true.
Proof.
  unfold Demo.pre. repeat (apply tag_clear_append; [try reflexivity|]); try reflexivity.
  apply (char_free_tag_clear "<"), escapeHtml_lt_free.
Qed.

Lemma execution_disabled_notice_witness :
  exists html,
    MarkdownIt_html (H := Demo.host) Demo.doc_live false Demo.w0 = (Ok html, Demo.w0) /\
    contains html_no_execute_enabled html = true /\
    contains widget_tag html = false /\ occurrences widget_tag html = 0.
Proof.
  pose proof (execution_disabled_notice (H := Demo.host) Demo.doc_live Demo.w0 "python"
                eq_refl demo_pre_clear) as (_ & _ & Hit & _).
  eexists. split; [reflexivity|].
  destruct (Hit _ _ eq_refl) as [Hc Ho]. split.
  - apply Hc. exists EmptyString, "app = 1". right. left. reflexivity.
  - apply Ho. reflexivity.
Defined.

(** C2 fails on a document that holds a widget reference as raw HTML.
    With execution disabled the render of such a document with a live
    fence returns, the world is the one before the call and the HTML
    holds the notice; but it also holds the widget reference that the
    document brought along. *)
Lemma execution_disabled_notice_counterexample :
  markdown_it_parse (Host := Raw.host) (dedent Raw.doc_raw_live) =
    [Html (Raw.widget_line +:+ nl); Fence "solara" EmptyString "app = 1"] /\
  MarkdownIt_html (H := Raw.host) Raw.doc_raw_live false Raw.w0 =
    (Ok ((Raw.widget_line +:+ nl) +:+
         (Demo.pre "app = 1" "python" +:+ html_no_execute_enabled)), Raw.w0) /\
  contains html_no_execute_enabled
    ((Raw.widget_line +:+ nl) +:+
     (Demo.pre "app = 1" "python" +:+ html_no_execute_enabled)) = true /\
  contains widget_tag
    ((Raw.widget_line +:+ nl) +:+
     (Demo.pre "app = 1" "python" +:+ html_no_execute_enabled)) = true.
Proof. repeat split; vm_compute; reflexivity. Qed.

(** ** Documents without a live fence *)

Lemma no_live_fence_In tokens lang attrs body :
  no_live_fence tokens = true -> In (Fence lang attrs body) tokens -> lang <> "solara".
Proof.
  intros Hn Hin. unfold no_live_fence in Hn. rewrite forallb_forall in Hn.
  specialize (Hn _ Hin). simpl in Hn. apply negb_true_iff in Hn.
  apply String.eqb_neq. exact Hn.
Qed.

(** Without a live fence the rendering of [MarkdownIt] neither reads nor
    writes the world. *)
Lemma MarkdownIt_tokens_no_live `{Host} unsafe tokens :
  no_live_fence tokens = true ->
  exists r, forall w,
    render_tokens (fun code name a => _highlight code name unsafe a) tokens w = (r, w).
Proof.
  intros Hn. apply render_tokens_quiet. intros lang attrs body Hin.
  eexists. intros w. apply highlight_plain. eapply no_live_fence_In; eassumption.
Qed.

(** Without a live fence the rendering of [Markdown] never enters the
    fence handler: it succeeds, and neither reads nor writes the world. *)
Lemma Markdown_tokens_no_live `{Host} fence tokens :
  no_live_fence tokens = true ->
  exists html,
    (forall w, render_tokens (custom_fences fence) tokens w = (Ok html, w)) /\
    (markup_clear tokens = true ->
     (forall b l a, tag_clear widget_tag (fence_div_format b l a) = true) ->
     (forall b l a, tag_clear widget_tag (superfences_highlight b l a) = true) ->
     tag_clear widget_tag html = true).
Proof.
  induction tokens as [|[s|lang attrs body] tokens IH]; intros Hn.
  - exists EmptyString. split; reflexivity.
  - cbn [no_live_fence forallb] in Hn. apply andb_true_iff in Hn as [_ Hn].
    destruct (IH Hn) as (tail & Hr & Hc). exists (s +:+ tail). split.
    + intros w. cbn [render_tokens]. unfold bind, ret. rewrite Hr. reflexivity.
    + intros Hm Hd Hs. cbn [markup_clear forallb] in Hm.
      apply andb_true_iff in Hm as [Hs0 Hm]. apply tag_clear_append; auto.
  - cbn [no_live_fence forallb] in Hn. apply andb_true_iff in Hn as [Hl Hn].
    simpl in Hl. apply negb_true_iff in Hl.
    destruct (IH Hn) as (tail & Hr & Hc).
    exists ((if String.eqb lang "mermaid" then fence_div_format body lang attrs
             else superfences_highlight body lang attrs) +:+ tail). split.
    + intros w. rewrite render_tokens_fence. unfold custom_fences. rewrite Hl.
      destruct (String.eqb lang "mermaid"); unfold ret; rewrite Hr; reflexivity.
    + intros Hm Hd Hs. cbn [markup_clear forallb] in Hm.
      apply andb_true_iff in Hm as [_ Hm]. apply tag_clear_append; [|auto].
      destruct (String.eqb lang "mermaid"); auto.
Qed.




(** C7: for a document without a live fence the outcome of a render does
    not depend on the world in which it runs, and the render leaves the
    world as it was.  So two passes over the same text with the same
    configuration give the same HTML, the same template and the same
    key (or raise the same exception). *)
Theorem render_deterministic_without_live_fence `{Host} (text : string)
    (highlight : list Z) (unsafe : bool) (style : style_arg) (w1 w2 : world) :
  (no_live_fence (markdown_it_parse (dedent text)) = true ->
   fst (MarkdownIt_html text unsafe w1) = fst (MarkdownIt_html text unsafe w2) /\
   fst (MarkdownIt text highlight unsafe w1) = fst (MarkdownIt text highlight unsafe w2) /\
   snd (MarkdownIt text highlight unsafe w1) = w1) /\
  (no_live_fence (markdown_parse (dedent text)) = true ->
   fst (Markdown_html text unsafe w1) = fst (Markdown_html text unsafe w2) /\
   fst (Markdown text unsafe style w1) = fst (Markdown text unsafe style w2) /\
   snd (Markdown text unsafe style w1) = w1).
Proof.
  split; intros Hn.
  - destruct (MarkdownIt_tokens_no_live unsafe _ Hn) as [r Hr].
    unfold MarkdownIt, MarkdownIt_html, bind. rewrite !Hr.
    destruct r; auto.
  - destruct (Markdown_tokens_no_live (Markdown_highlight unsafe) _ Hn)
      as (html & Hr & _).
    unfold Markdown, Markdown_html, bind. rewrite !Hr. auto.
Qed.

Lemma render_deterministic_without_live_fence_witness :
  fst (MarkdownIt (H := Demo.host) Demo.doc_plain [1; 2]%Z true Demo.w0) =
  fst (MarkdownIt (H := Demo.host) Demo.doc_plain [1; 2]%Z true
         (snd (MarkdownIt (H := Demo.host) Demo.doc_live [] true Demo.w0))).
Proof.
  pose proof (render_deterministic_without_live_fence (H := Demo.host) Demo.doc_plain
                [1; 2]%Z true Style_none Demo.w0
                (snd (MarkdownIt (H := Demo.host) Demo.doc_live [] true Demo.w0)))
    as [Hit _].
  destruct (Hit eq_refl) as (_ & Heq & _). exact Heq.
Defined.

(** ** The [highlight] argument of [MarkdownIt] *)

(** C10: in [MarkdownIt] the argument [highlight] reaches nothing but the
    hashed text.  For any two values of it, from the same world, the
    render ends in the same world, raises the same exception if it
    raises, and otherwise returns the same template around the same
    HTML; the two keys are the digests of the two hashed texts. *)
Theorem MarkdownIt_highlight_only_in_key `{Host} (text : string) (unsafe : bool)
    (hl1 hl2 : list Z) (w : world) :
  snd (MarkdownIt text hl1 unsafe w) = snd (MarkdownIt text hl2 unsafe w) /\
  match fst (MarkdownIt text hl1 unsafe w), fst (MarkdownIt text hl2 unsafe w) with
  | Ok v1, Ok v2 =>
      template v1 = template v2 /\
      exists html,
        fst (MarkdownIt_html text unsafe w) = Ok html /\
        template v1 = _markdown_template html EmptyString /\
        key v1 = sha256_hexdigest (MarkdownIt_key_text html hl1 unsafe) /\
        key v2 = sha256_hexdigest (MarkdownIt_key_text html hl2 unsafe)
  | Raise e1, Raise e2 => e1 = e2
  | _, _ => False
  end.
Proof.
  unfold MarkdownIt, bind.
  destruct (MarkdownIt_html text unsafe w) as [[html|e] w']; simpl.
  - split; [reflexivity|]. split; [reflexivity|]. exists html. auto.
  - auto.
Qed.

(** ** A live fence that binds [app] *)

Lemma widget_markup_occurrences id tail :
  tag_clear widget_tag id = true ->
  tag_clear widget_tag tail = true ->
  occurrences widget_tag (widget_markup id +:+ tail) = 1 /\
  contains ("<jupyter-widget widget=" +:+ dq +:+ "IPY_MODEL_" +:+ id +:+ dq)
    (widget_markup id) = true.
Proof.
  intros Hid Htail.
  set (p1 := "<div class=" +:+ dq +:+ "solara-markdown-output v-card v-sheet elevation-7"
               +:+ dq +:+ ">").
  set (p2 := "jupyter-widget widget=" +:+ dq +:+ "IPY_MODEL_").
  set (p3 := ">loading widget...</jupyter-widget><div class=" +:+ dq +:+ "v-messages"
               +:+ dq +:+ ">Live output</div></div>").
  assert (widget_markup id = p1 +:+ String "<" (p2 +:+ id +:+ dq +:+ p3)) as -> by reflexivity.
  split.
  - rewrite append_assoc, (occurrences_clear_append widget_tag p1) by reflexivity.
    rewrite append_cons, occurrences_cons.
    assert (String.prefix widget_tag
              (String "<" ((p2 +:+ id +:+ dq +:+ p3) +:+ tail)) = true) as ->.
    { rewrite append_assoc. apply (prefix_append widget_tag ("<" +:+ p2)). reflexivity. }
    rewrite occurrences_clear; [reflexivity|discriminate|].
    rewrite !append_assoc.
    repeat (apply tag_clear_append; [first [exact Hid|reflexivity]|]). exact Htail.
  - apply contains_append_r.
    assert (String "<" (p2 +:+ id +:+ dq +:+ p3) =
            ("<jupyter-widget widget=" +:+ dq +:+ "IPY_MODEL_" +:+ id +:+ dq) +:+ p3) as ->.
    { rewrite !append_assoc. reflexivity. }
    apply contains_self_append.
Qed.

(** C6: with execution enabled and the lexer for Python registered, a
    live fence whose code binds [app] gets the fragment made of the
    highlighted source followed by the widget markup.  The fragment holds
    exactly one widget reference, and the id in it is the model id of the
    container created by this call: a container that held nothing before,
    and that now holds the tree [app].  The wrapper of [Markdown] returns
    the same fragment.  In a document rendered by [MarkdownIt] whose
    other parts hold no widget reference, the HTML holds exactly one. *)
Theorem live_fence_widget_reference `{Host} (src : string) (w : world)
    (lx : lexer) (ast : code_object) (scope : gmap string value) (x x' : ext)
    (a : value) :
  lexers "python" = Some lx ->
  py_compile src = inr ast ->
  py_exec ast ∅ (w_ext w) = (inr scope, x) ->
  scope !! "app" = Some a ->
  solara_render (El_obj a) (w_boxes w) x = (inr tt, x') ->
  tag_clear widget_tag (pygments_highlight src lx) = true ->
  tag_clear widget_tag (model_id (w_boxes w)) = true ->
  boxes_allocated w ->
  exists w',
    (forall extra,
        _highlight src "solara" true extra w =
          (Ok (pygments_highlight src lx +:+ widget_markup (model_id (w_boxes w))), w') /\
        Markdown_highlight true src "solara" extra w =
          (Ok (pygments_highlight src lx +:+ widget_markup (model_id (w_boxes w))), w')) /\
    occurrences widget_tag
      (pygments_highlight src lx +:+ widget_markup (model_id (w_boxes w))) = 1 /\
    contains ("<jupyter-widget widget=" +:+ dq +:+ "IPY_MODEL_"
                +:+ model_id (w_boxes w) +:+ dq)
      (pygments_highlight src lx +:+ widget_markup (model_id (w_boxes w))) = true /\
    ~ In (w_boxes w) (map fst (w_mounted w)) /\
    w_boxes w' = S (w_boxes w) /\
    w_mounted w' = (w_boxes w, El_obj a) :: w_mounted w /\
    boxes_allocated w' /\
    (forall pre post attrs text h1 h2 w0 w2,
        markdown_it_parse (dedent text) = pre ++ Fence "solara" attrs src :: post ->
        render_tokens (fun code name e => _highlight code name true e) pre w0 = (Ok h1, w) ->
        render_tokens (fun code name e => _highlight code name true e) post w' = (Ok h2, w2) ->
        tag_clear widget_tag h1 = true ->
        tag_clear widget_tag h2 = true ->
        MarkdownIt_html text true w0 =
          (Ok (h1 +:+ (pygments_highlight src lx +:+ widget_markup (model_id (w_boxes w)))
                  +:+ h2), w2) /\
        occurrences widget_tag
          (h1 +:+ (pygments_highlight src lx +:+ widget_markup (model_id (w_boxes w)))
              +:+ h2) = 1).
Proof.
  intros Hl Hc He Ha Hr Hhl Hid Hw.
  pose proof (run_solara_app _ _ _ _ _ _ _ Hc He Ha Hr) as Hrun.
  destruct (widget_markup_occurrences _ EmptyString Hid eq_refl) as [Hocc Hcont].
  rewrite append_nil_r in Hocc.
  eexists.
  assert (Hh : forall extra, _highlight src "solara" true extra w =
            (Ok (pygments_highlight src lx +:+ widget_markup (model_id (w_boxes w))),
             World _ x' (S (w_boxes w)) ((w_boxes w, El_obj a) :: w_mounted w) (w_log w)
               (Ev_render (w_boxes w) :: Ev_exec :: Ev_compile src :: w_trace w))).
  { intros extra. rewrite (highlight_live_enabled _ _ _ _ Hl), Hrun. reflexivity. }
  split; [intros extra; split; [apply Hh|apply Markdown_highlight_ok, Hh]|].
  split; [rewrite occurrences_clear_append by exact Hhl; exact Hocc|].
  split; [apply contains_append_r, Hcont|].
  split.
  { intros Hin. apply in_map_iff in Hin as (m & Hm & Hin).
    unfold boxes_allocated in Hw. rewrite List.Forall_forall in Hw.
    specialize (Hw m Hin). lia. }
  split; [reflexivity|]. split; [reflexivity|]. split.
  { unfold boxes_allocated in *. simpl. constructor; [simpl; lia|].
    eapply List.Forall_impl; [|exact Hw]. simpl. intros m Hm. lia. }
  intros pre post attrs text h1 h2 w0 w2 Hparse Hpre Hpost Hh1 Hh2. split.
  - unfold MarkdownIt_html.
    rewrite Hparse, render_tokens_app, Hpre, render_tokens_fence, Hh, Hpost.
    rewrite <- !append_assoc. reflexivity.
  - rewrite (occurrences_clear_append _ _ _ Hh1), append_assoc.
    rewrite (occurrences_clear_append _ _ _ Hhl).
    apply (widget_markup_occurrences _ _ Hid Hh2).
Qed.

Lemma live_fence_widget_reference_witness :
  exists w2,
    MarkdownIt_html (H := Demo.host) Demo.doc_live true Demo.w0 =
      (Ok (("<p>hi</p>" +:+ nl) +:+
           (Demo.pre "app = 1" "python" +:+ widget_markup "w0") +:+ EmptyString), w2) /\
    occurrences widget_tag
      (("<p>hi</p>" +:+ nl) +:+
       (Demo.pre "app = 1" "python" +:+ widget_markup "w0") +:+ EmptyString) = 1.
Proof.
  assert (Ha : ({["app" := 1%Z]} : gmap string Z) !! "app" = Some 1%Z) by reflexivity.
  destruct (live_fence_widget_reference (H := Demo.host) "app = 1" Demo.w0
              "python" "app = 1" {["app" := 1%Z]} 1 1 1%Z
              eq_refl eq_refl eq_refl Ha eq_refl eq_refl eq_refl (List.Forall_nil _))
    as (w' & _ & _ & _ & _ & _ & _ & _ & Hdoc).
  exists w'.
  apply (Hdoc [Html ("<p>hi</p>" +:+ nl)] [] EmptyString Demo.doc_live
           ("<p>hi</p>" +:+ nl) EmptyString Demo.w0 w'); reflexivity.
Defined.

Lemma run_solara_entry_point_witness :
  fst (_run_solara (H := Demo.host) "app = 1" Demo.w0) = Ok (widget_markup "w0").
Proof.
  destruct (run_solara_entry_point (H := Demo.host) "app = 1" Demo.w0 "app = 1"
              {["app" := 1%Z]} 1 eq_refl eq_refl) as (Happ & _).
  assert (Ha : ({["app" := 1%Z]} : gmap string Z) !! "app" = Some 1%Z) by reflexivity.
  destruct (Happ 1%Z 1 Ha eq_refl) as (Hfst & _). exact Hfst.
Defined.

(** ** The hashed text *)

Lemma pretty_N_char_num x : is_num_char (pretty_N_char x) = true.
Proof.
  unfold pretty_N_char. repeat case_match; reflexivity.
Qed.

Lemma pretty_N_go_num x s : all_num s = true -> all_num (pretty_N_go x s) = true.
Proof.
  revert s. induction (N.lt_wf_0 x) as [x _ IH]; intros s Hs.
  destruct (decide (x = 0)%N) as [->|Hx]; [rewrite pretty_N_go_0; exact Hs|].
  rewrite pretty_N_go_step by lia. apply IH.
  - apply N.div_lt; lia.
  - cbn [all_num]. rewrite pretty_N_char_num, Hs. reflexivity.
Qed.

Lemma pretty_N_go_length x s : String.length s <= String.length (pretty_N_go x s).
Proof.
  revert s. induction (N.lt_wf_0 x) as [x _ IH]; intros s.
  destruct (decide (x = 0)%N) as [->|Hx]; [rewrite pretty_N_go_0; lia|].
  rewrite pretty_N_go_step by lia.
  etrans; [|apply IH; apply N.div_lt; lia]. simpl. lia.
Qed.

Lemma pretty_N_shape (x : N) : exists c s, pretty x = String c s /\ all_num (String c s) = true.
Proof.
  unfold pretty, pretty_N. destruct (decide (x = 0)%N) as [->|Hx].
  - exists "0"%char, EmptyString. split; reflexivity.
  - pose proof (pretty_N_go_num x EmptyString eq_refl) as Hn.
    rewrite pretty_N_go_step in * by lia.
    pose proof (pretty_N_go_length (x `div` 10)
                  (String (pretty_N_char (x `mod` 10)) EmptyString)) as Hlen.
    destruct (pretty_N_go _ _) as [|c s]; [simpl in Hlen; lia|].
    exists c, s. split; [reflexivity|exact Hn].
Qed.

(** [repr] of an int is a non-empty run of digits and minus signs. *)
Lemma repr_int_shape (n : Z) :
  exists c s, repr_int n = String c s /\ all_num (String c s) = true.
Proof.
  unfold repr_int, pretty, pretty_Z. destruct n as [|p|p].
  - exists "0"%char, EmptyString. split; reflexivity.
  - apply (pretty_N_shape (N.pos p)).
  - destruct (pretty_N_shape (N.pos p)) as (c & s & E & Hn).
    exists "-"%char, (String c s). split.
    + change (pretty p) with (pretty (N.pos p)). rewrite E. reflexivity.
    + cbn [all_num]. cbn [all_num] in Hn. rewrite Hn. reflexivity.
Qed.

(** A number followed by something that ends it is read back in one way. *)
Lemma num_then_stop s1 s2 r1 r2 :
  all_num s1 = true -> all_num s2 = true -> stops r1 = true -> stops r2 = true ->
  s1 +:+ r1 = s2 +:+ r2 -> s1 = s2 /\ r1 = r2.
Proof.
  revert s2. induction s1 as [|c s1 IH]; intros s2 H1 H2 Hr1 Hr2 E.
  - destruct s2 as [|d s2]; [auto|].
    rewrite append_nil_l, append_cons in E. subst r1.
    cbn [all_num] in H2. apply andb_true_iff in H2 as [Hd _].
    simpl in Hr1. rewrite Hd in Hr1. discriminate.
  - destruct s2 as [|d s2].
    + rewrite append_nil_l, append_cons in E. subst r2.
      cbn [all_num] in H1. apply andb_true_iff in H1 as [Hc _].
      simpl in Hr2. rewrite Hc in Hr2. discriminate.
    + rewrite !append_cons in E. inversion E; subst.
      cbn [all_num] in H1, H2.
      apply andb_true_iff in H1 as [_ H1]. apply andb_true_iff in H2 as [_ H2].
      destruct (IH s2 H1 H2 Hr1 Hr2) as [-> ->]; auto.
Qed.

Lemma join_comma_cons n l :
  join_comma (map repr_int (n :: l)) = repr_int n +:+ items_tail l.
Proof.
  destruct l as [|m l]; [|reflexivity].
  cbn [map join_comma String.concat items_tail]. rewrite append_nil_r. reflexivity.
Qed.

Lemma items_tail_stops l r : stops r = true -> stops (items_tail l +:+ r) = true.
Proof. intros Hr. destruct l; [exact Hr|reflexivity]. Qed.

Lemma join_comma_inj l1 l2 :
  join_comma (map repr_int l1) +:+ "]" = join_comma (map repr_int l2) +:+ "]" ->
  l1 = l2.
Proof.
  revert l2. induction l1 as [|a l1 IH]; intros [|b l2] E; [reflexivity| | |].
  - rewrite join_comma_cons in E. destruct (repr_int_shape b) as (c & s & Eb & Hn).
    rewrite Eb in E. cbn in E. inversion E; subst. discriminate.
  - rewrite join_comma_cons in E. destruct (repr_int_shape a) as (c & s & Ea & Hn).
    rewrite Ea in E. cbn in E. inversion E; subst. discriminate.
  - rewrite !join_comma_cons, !append_assoc in E.
    destruct (repr_int_shape a) as (ca & sa & Ea & Ha).
    destruct (repr_int_shape b) as (cb & sb & Eb & Hb).
    apply num_then_stop in E as [Eab Et];
      [|rewrite ?Ea, ?Eb; assumption..| |]; try (apply items_tail_stops; reflexivity).
    apply (inj pretty) in Eab as ->. f_equal.
    destruct l1 as [|a1 l1], l2 as [|b1 l2]; [reflexivity|discriminate|discriminate|].
    apply IH. unfold items_tail in Et. rewrite !append_assoc in Et.
    apply (inj (String.append ", ")) in Et. exact Et.
Qed.

Lemma repr_list_inj l1 l2 : repr_list l1 = repr_list l2 -> l1 = l2.
Proof.
  unfold repr_list. intros E. apply (inj (String.append "[")) in E.
  apply join_comma_inj, E.
Qed.

(** For one HTML, the hashed text tells the flag and the list apart. *)
Lemma MarkdownIt_key_text_inj html hl1 hl2 u1 u2 :
  MarkdownIt_key_text html hl1 u1 = MarkdownIt_key_text html hl2 u2 ->
  u1 = u2 /\ hl1 = hl2.
Proof.
  unfold MarkdownIt_key_text. intros E. apply (inj (String.append html)) in E.
  destruct u1, u2; try discriminate E;
    apply (inj (String.append _)) in E; apply repr_list_inj in E; auto.
Qed.

(** C4: the key that [MarkdownIt] returns is the digest of one text made
    of the final HTML, [str] of the execution flag and [repr] of the
    highlight list, nothing else.  Renders that agree on the three get
    the same key.  For one HTML, a different flag or a different list
    gives a different hashed text, so the two keys can only be equal if
    the digest collides on these two texts; they differ for any digest
    without collisions.  [Markdown] has no highlight argument; its key
    is the digest of the HTML and the flag. *)
Theorem identity_key_covers_configuration `{Host} (html : string)
    (hl1 hl2 : list Z) (u1 u2 : bool) :
  (forall text w v w',
      MarkdownIt text hl1 u1 w = (Ok v, w') ->
      exists html',
        MarkdownIt_html text u1 w = (Ok html', w') /\
        key v = sha256_hexdigest (html' +:+ str_bool u1 +:+ repr_list hl1)) /\
  (u1 = u2 -> hl1 = hl2 ->
   sha256_hexdigest (MarkdownIt_key_text html hl1 u1) =
   sha256_hexdigest (MarkdownIt_key_text html hl2 u2)) /\
  ((u1, hl1) <> (u2, hl2) ->
   MarkdownIt_key_text html hl1 u1 <> MarkdownIt_key_text html hl2 u2 /\
   (sha256_hexdigest (MarkdownIt_key_text html hl1 u1) =
    sha256_hexdigest (MarkdownIt_key_text html hl2 u2) ->
    digest_collision (MarkdownIt_key_text html hl1 u1)
      (MarkdownIt_key_text html hl2 u2)) /\
   ((forall t1 t2, sha256_hexdigest t1 = sha256_hexdigest t2 -> t1 = t2) ->
    sha256_hexdigest (MarkdownIt_key_text html hl1 u1) <>
    sha256_hexdigest (MarkdownIt_key_text html hl2 u2))) /\
  (forall text style w v w',
      Markdown text u1 style w = (Ok v, w') ->
      exists html',
        Markdown_html text u1 w = (Ok html', w') /\
        key v = sha256_hexdigest (html' +:+ str_bool u1)) /\
  (u1 <> u2 -> Markdown_key_text html u1 <> Markdown_key_text html u2).
Proof.
  split; [|split; [|split; [|split]]].
  - intros text w v w' Hr. unfold MarkdownIt, bind in Hr.
    destruct (MarkdownIt_html text u1 w) as [[html'|e] w1]; inversion Hr; subst.
    exists html'. split; reflexivity.
  - intros -> ->. reflexivity.
  - intros Hne.
    assert (MarkdownIt_key_text html hl1 u1 <> MarkdownIt_key_text html hl2 u2) as Htext.
    { intros E. apply MarkdownIt_key_text_inj in E as [-> ->]. congruence. }
    split; [exact Htext|]. split; [intros Hd; split; assumption|].
    intros Hinj Hd. apply Htext, Hinj, Hd.
  - intros text style w v w' Hr. unfold Markdown, bind in Hr.
    destruct (Markdown_html text u1 w) as [[html'|e] w1]; inversion Hr; subst.
    exists html'. split; reflexivity.
  - intros Hne E. unfold Markdown_key_text in E.
    apply (inj (String.append html)) in E.
    destruct u1, u2; (congruence || discriminate E).
Qed.

Lemma identity_key_covers_configuration_witness :
  MarkdownIt_key_text "<p>hi</p>" [1; 2]%Z true <>
  MarkdownIt_key_text "<p>hi</p>" [1; 3]%Z true /\
  sha256_hexdigest (Host := Demo.host) (MarkdownIt_key_text "<p>hi</p>" [1; 2]%Z true) <>
  sha256_hexdigest (Host := Demo.host) (MarkdownIt_key_text "<p>hi</p>" [1; 2]%Z false).
Proof.
  split.
  - destruct (identity_key_covers_configuration (H := Demo.host) "<p>hi</p>"
                [1; 2]%Z [1; 3]%Z true true) as (_ & _ & Hne & _).
    destruct Hne as [Ht _]; [intros E; inversion E|exact Ht].
  - destruct (identity_key_covers_configuration (H := Demo.host) "<p>hi</p>"
                [1; 2]%Z [1; 2]%Z true false) as (_ & _ & Hne & _).
    destruct Hne as (_ & _ & Hk); [intros E; inversion E|].
    apply Hk. intros t1 t2 E. exact E.
Defined.

(** ** Lines *)

Lemma split_lines_cons c s :
  split_lines (String c s) =
    if Ascii.eqb c (ascii_of_nat 10) then EmptyString :: split_lines s
    else match split_lines s with
         | l :: ls => String c l :: ls
         | [] => [String c EmptyString]
         end.
Proof. reflexivity. Qed.

Lemma split_lines_not_nil s : split_lines s <> [].
Proof.
  induction s as [|c s IH]; [discriminate|].
  rewrite split_lines_cons. destruct (Ascii.eqb c _); [discriminate|].
  destruct (split_lines s); discriminate.
Qed.

(** A text without line feed in front of [r] joins the first line of [r]. *)
Lemma split_lines_append a r :
  char_free (ascii_of_nat 10) a = true ->
  split_lines (a +:+ r) =
    match split_lines r with
    | l :: ls => (a +:+ l) :: ls
    | [] => [a]
    end.
Proof.
  intros Ha. induction a as [|c a IH].
  - rewrite append_nil_l. destruct (split_lines r) eqn:E; [|reflexivity].
    destruct (split_lines_not_nil _ E).
  - simpl in Ha. apply andb_true_iff in Ha as [Hc Ha]. apply negb_true_iff in Hc.
    rewrite append_cons, split_lines_cons, Hc, (IH Ha).
    destruct (split_lines r) as [|l ls] eqn:E; [destruct (split_lines_not_nil _ E)|].
    reflexivity.
Qed.

Lemma join_lines_cons2 a b ls :
  join_lines (a :: b :: ls) = a +:+ nl +:+ join_lines (b :: ls).
Proof. reflexivity. Qed.

Lemma split_join_lines ls :
  ls <> [] ->
  Forall (fun l => char_free (ascii_of_nat 10) l = true) ls ->
  split_lines (join_lines ls) = ls.
Proof.
  induction ls as [|a ls IH]; intros Hne Hf; [congruence|].
  inversion Hf as [|? ? Ha Hls]; subst.
  destruct ls as [|b ls].
  - change (join_lines [a]) with a. rewrite <- (append_nil_r a) at 1.
    rewrite (split_lines_append a EmptyString Ha). simpl. rewrite append_nil_r. reflexivity.
  - rewrite join_lines_cons2, (split_lines_append a _ Ha).
    unfold nl. rewrite append_cons, split_lines_cons. simpl Ascii.eqb. cbv iota.
    rewrite append_nil_l, IH by (discriminate || assumption).
    rewrite append_nil_r. reflexivity.
Qed.

Lemma split_lines_free s :
  Forall (fun l => char_free (ascii_of_nat 10) l = true) (split_lines s).
Proof.
  induction s as [|c s IH]; [repeat constructor|].
  rewrite split_lines_cons. destruct (Ascii.eqb c (ascii_of_nat 10)) eqn:E.
  - constructor; [reflexivity|exact IH].
  - destruct (split_lines s) as [|l ls]; [repeat constructor; simpl; rewrite E; reflexivity|].
    inversion IH; subst. constructor; [|assumption].
    simpl. rewrite E. simpl. assumption.
Qed.

(** ** Blank characters and margins *)

Lemma all_blank_append a b : all_blank (a +:+ b) = all_blank a && all_blank b.
Proof.
  induction a as [|c a IH]; [reflexivity|].
  rewrite append_cons. cbn [all_blank]. rewrite IH, andb_assoc. reflexivity.
Qed.

Lemma all_blank_free p : all_blank p = true -> char_free (ascii_of_nat 10) p = true.
Proof.
  induction p as [|c p IH]; [reflexivity|]. cbn [all_blank char_free].
  intros Hp. apply andb_true_iff in Hp as [Hc Hp]. rewrite (IH Hp), andb_true_r.
  unfold is_blank in Hc. apply orb_true_iff in Hc as [Hc|Hc];
    apply Ascii.eqb_eq in Hc; subst; reflexivity.
Qed.

Lemma leading_blank_append p l :
  all_blank p = true -> leading_blank (p +:+ l) = p +:+ leading_blank l.
Proof.
  intros Hp. induction p as [|c p IH]; [reflexivity|].
  cbn [all_blank] in Hp. apply andb_true_iff in Hp as [Hc Hp].
  rewrite !append_cons. cbn [leading_blank]. rewrite Hc, (IH Hp). reflexivity.
Qed.

Lemma leading_blank_prefix s : String.prefix (leading_blank s) s = true.
Proof.
  induction s as [|c s IH]; [reflexivity|]. cbn [leading_blank].
  destruct (is_blank c); [|apply prefix_nil].
  rewrite prefix_cons, Ascii.eqb_refl. exact IH.
Qed.

Lemma prefix_trans a b c :
  String.prefix a b = true -> String.prefix b c = true -> String.prefix a c = true.
Proof.
  revert b c. induction a as [|x a IH]; intros b c Hab Hbc; [apply prefix_nil|].
  destruct b as [|y b]; [discriminate|]. destruct c as [|z c]; [discriminate|].
  rewrite prefix_cons in *.
  apply andb_true_iff in Hab as [Hxy Hab]. apply andb_true_iff in Hbc as [Hyz Hbc].
  apply Ascii.eqb_eq in Hxy, Hyz. subst. rewrite Ascii.eqb_refl. simpl. eauto.
Qed.

Lemma common_prefix_append p a b :
  common_prefix (p +:+ a) (p +:+ b) = p +:+ common_prefix a b.
Proof.
  induction p as [|c p IH]; [reflexivity|].
  rewrite !append_cons. cbn [common_prefix]. rewrite Ascii.eqb_refl, IH. reflexivity.
Qed.

Lemma common_prefix_l a b : String.prefix (common_prefix a b) a = true.
Proof.
  revert b. induction a as [|x a IH]; intros b; [reflexivity|].
  destruct b as [|y b]; [reflexivity|]. cbn [common_prefix].
  destruct (Ascii.eqb x y); [|reflexivity].
  rewrite prefix_cons, Ascii.eqb_refl. apply IH.
Qed.

Lemma common_prefix_r a b : String.prefix (common_prefix a b) b = true.
Proof.
  revert b. induction a as [|x a IH]; intros b; [apply prefix_nil|].
  destruct b as [|y b]; [reflexivity|]. cbn [common_prefix].
  destruct (Ascii.eqb x y) eqn:E; [|reflexivity].
  apply Ascii.eqb_eq in E as ->. rewrite prefix_cons, Ascii.eqb_refl. apply IH.
Qed.

Lemma margin_step_append p acc i :
  margin_step (option_map (String.append p) acc) (p +:+ i) =
  option_map (String.append p) (margin_step acc i).
Proof.
  destruct acc as [m|]; [|reflexivity]. unfold margin_step, startswith.
  cbn [option_map]. rewrite !prefix_append_same.
  destruct (String.prefix m i); [reflexivity|].
  destruct (String.prefix i m); [reflexivity|].
  rewrite common_prefix_append. reflexivity.
Qed.

Lemma fold_margin_append p indents acc :
  fold_left margin_step (map (String.append p) indents)
    (option_map (String.append p) acc) =
  option_map (String.append p) (fold_left margin_step indents acc).
Proof.
  revert acc. induction indents as [|i indents IH]; intros acc; [reflexivity|].
  cbn [map fold_left]. rewrite margin_step_append. apply IH.
Qed.

Lemma margin_step_prefix acc i m :
  margin_step acc i = Some m ->
  String.prefix m i = true /\
  (forall a, acc = Some a -> String.prefix m a = true).
Proof.
  destruct acc as [a|]; unfold margin_step, startswith.
  - destruct (String.prefix a i) eqn:E1.
    + intros [= <-]. split; [exact E1|]. intros ? [= <-]. apply prefix_refl.
    + destruct (String.prefix i a) eqn:E2.
      * intros [= <-]. split; [apply prefix_refl|]. intros ? [= <-]. exact E2.
      * intros [= <-]. split; [apply common_prefix_r|].
        intros ? [= <-]. apply common_prefix_l.
  - intros [= <-]. split; [apply prefix_refl|]. intros ? [=].
Qed.

(** The margin begins every indent, and the margin the loop started from. *)
Lemma fold_margin_prefix indents acc :
  (indents <> [] \/ acc <> None) ->
  exists m,
    fold_left margin_step indents acc = Some m /\
    (forall i, In i indents -> String.prefix m i = true) /\
    (forall a, acc = Some a -> String.prefix m a = true).
Proof.
  revert acc. induction indents as [|i indents IH]; intros acc Hne.
  - destruct Hne as [Hne|Hne]; [congruence|]. destruct acc as [a|]; [|congruence].
    exists a. split; [reflexivity|]. split; [intros ? []|].
    intros ? [= <-]. apply prefix_refl.
  - cbn [fold_left].
    destruct (margin_step acc i) as [m0|] eqn:E;
      [|destruct acc; unfold margin_step in E; repeat case_match; discriminate].
    destruct (IH (Some m0)) as (m & Hm & Hin & Hacc); [right; discriminate|].
    destruct (margin_step_prefix _ _ _ E) as [Hi Ha].
    pose proof (Hacc m0 eq_refl) as Hm0.
    exists m. split; [exact Hm|]. split.
    + intros j [<-|Hj]; [eapply prefix_trans; eassumption|auto].
    + intros a Hacc'. eapply prefix_trans; [exact Hm0|auto].
Qed.

(** ** Padding every line *)

Lemma blank_out_blank l : all_blank (blank_out l) = all_blank l.
Proof. unfold blank_out. destruct (all_blank l) eqn:E; [reflexivity|exact E]. Qed.

Lemma blank_out_pad p l :
  all_blank p = true -> blank_out (p +:+ l) = pad_line p (blank_out l).
Proof.
  intros Hp. unfold pad_line. rewrite blank_out_blank. unfold blank_out.
  rewrite all_blank_append, Hp. simpl. destruct (all_blank l); reflexivity.
Qed.

Lemma filter_pad p lines :
  all_blank p = true ->
  List.filter (fun l => negb (all_blank l)) (map (pad_line p) lines) =
  map (String.append p) (List.filter (fun l => negb (all_blank l)) lines).
Proof.
  intros Hp. induction lines as [|b lines IH]; [reflexivity|].
  cbn [map List.filter]. rewrite IH. unfold pad_line.
  destruct (all_blank b) eqn:E; cbn [all_blank negb]; [reflexivity|].
  rewrite all_blank_append, Hp, E. reflexivity.
Qed.

Lemma margin_of_pad p lines :
  all_blank p = true ->
  margin_of (map (pad_line p) lines) = option_map (String.append p) (margin_of lines).
Proof.
  intros Hp. unfold margin_of. rewrite (filter_pad p lines Hp), !map_map.
  rewrite <- (fold_margin_append p _ None). cbn [option_map]. f_equal.
  rewrite map_map. apply map_ext. intros l. apply leading_blank_append, Hp.
Qed.

Lemma drop_chars_append p m b :
  drop_chars (String.length (p +:+ m)) (p +:+ b) = drop_chars (String.length m) b.
Proof. induction p as [|c p IH]; [reflexivity|]. rewrite !append_cons. exact IH. Qed.

Lemma cut_line_prefix m s :
  String.prefix m s = true -> cut_line (Some m) s = drop_chars (String.length m) s.
Proof.
  intros Hm. destruct m as [|c m]; [reflexivity|].
  unfold cut_line, cut_margin, startswith. rewrite Hm. reflexivity.
Qed.

Lemma cut_line_empty margin : cut_line margin EmptyString = EmptyString.
Proof. destruct margin as [[|c m]|]; reflexivity. Qed.

(** Cutting the padded margin from a padded line gives what cutting the
    margin from the line gave. *)
Lemma cut_line_pad p raw b :
  all_blank p = true ->
  In b (map blank_out raw) ->
  cut_line (option_map (String.append p) (margin_of (map blank_out raw))) (pad_line p b) =
  cut_line (margin_of (map blank_out raw)) b.
Proof.
  intros Hp Hin. unfold pad_line. destruct (all_blank b) eqn:E.
  - apply in_map_iff in Hin as (l & <- & _).
    rewrite blank_out_blank in E. unfold blank_out. rewrite E.
    rewrite !cut_line_empty. reflexivity.
  - assert (In (leading_blank b)
              (map leading_blank
                 (List.filter (fun l => negb (all_blank l)) (map blank_out raw)))) as Hi.
    { apply in_map, filter_In. rewrite E. auto. }
    destruct (fold_margin_prefix
                (map leading_blank
                   (List.filter (fun l => negb (all_blank l)) (map blank_out raw))) None)
      as (m & Hm & Hall & _).
    { left. intros Hnil. rewrite Hnil in Hi. destruct Hi. }
    unfold margin_of. rewrite Hm. cbn [option_map].
    assert (String.prefix m b = true) as Hmb.
    { eapply prefix_trans; [apply Hall, Hi|apply leading_blank_prefix]. }
    rewrite !cut_line_prefix by (rewrite ?prefix_append_same; exact Hmb).
    apply drop_chars_append.
Qed.

Lemma dedent_indent_lines p text :
  all_blank p = true -> dedent (indent_lines p text) = dedent text.
Proof.
  intros Hp. unfold dedent, indent_lines.
  rewrite split_join_lines.
  - assert (map blank_out (map (String.append p) (split_lines text)) =
            map (pad_line p) (map blank_out (split_lines text))) as ->.
    { rewrite !map_map. apply map_ext. intros l. apply blank_out_pad, Hp. }
    rewrite (margin_of_pad p _ Hp), (map_map (pad_line p)). f_equal.
    apply List.map_ext_in. intros b Hb. apply cut_line_pad; assumption.
  - destruct (split_lines text) eqn:E; [destruct (split_lines_not_nil _ E)|discriminate].
  - rewrite List.Forall_map. eapply List.Forall_impl; [|apply split_lines_free].
    intros l Hl. apply char_free_append; [apply all_blank_free, Hp|exact Hl].
Qed.

(** C9: both components dedent the text first.  Putting one run of
    spaces and tabs before every line of a document changes neither the
    dedented text nor, therefore, anything the render returns or does. *)
Theorem render_ignores_common_indent `{Host} (p text : string)
    (highlight : list Z) (unsafe : bool) (style : style_arg) (w : world) :
  all_blank p = true ->
  dedent (indent_lines p text) = dedent text /\
  MarkdownIt (indent_lines p text) highlight unsafe w = MarkdownIt text highlight unsafe w /\
  Markdown (indent_lines p text) unsafe style w = Markdown text unsafe style w.
Proof.
  intros Hp. pose proof (dedent_indent_lines p text Hp) as Hd.
  split; [exact Hd|].
  unfold MarkdownIt, Markdown, MarkdownIt_html, Markdown_html.
  rewrite Hd. split; reflexivity.
Qed.

Lemma render_ignores_common_indent_witness :
  MarkdownIt (H := Demo.host) (indent_lines "    " Demo.doc_live) [] true Demo.w0 =
  MarkdownIt (H := Demo.host) Demo.doc_live [] true Demo.w0.
Proof.
  apply (render_ignores_common_indent (H := Demo.host) "    " Demo.doc_live [] true
           Style_none Demo.w0 eq_refl).
Defined.

(** * Further properties of the code *)

(** ** What one run of the executor leaves behind *)

(** Everything [_run_solara] can do to the world, by outcome. *)
Lemma run_solara_outcome `{Host} code w :
  compiled_codes (w_trace (snd (_run_solara code w))) =
    code :: compiled_codes (w_trace w) /\
  exec_count (w_trace (snd (_run_solara code w))) <= S (exec_count (w_trace w)) /\
  w_log (snd (_run_solara code w)) = w_log w /\
  match fst (_run_solara code w) with
  | Ok markup =>
      markup = widget_markup (model_id (w_boxes w)) /\
      w_boxes (snd (_run_solara code w)) = S (w_boxes w) /\
      exec_count (w_trace (snd (_run_solara code w))) = S (exec_count (w_trace w)) /\
      exists tree,
        w_mounted (snd (_run_solara code w)) = (w_boxes w, tree) :: w_mounted w
  | Raise _ =>
      w_mounted (snd (_run_solara code w)) = w_mounted w /\
      (w_boxes (snd (_run_solara code w)) = w_boxes w \/
       w_boxes (snd (_run_solara code w)) = S (w_boxes w))
  end.
Proof.
  unfold _run_solara. run_monad.
  destruct (py_compile code) as [e|ast]; simpl; [auto 10|].
  destruct (py_exec ast ∅ (w_ext w)) as [[e|scope] x]; simpl; [auto 10|].
  destruct (scope !! "app") as [a|]; simpl.
  - destruct (solara_render (El_obj a) (w_boxes w) x) as [[e|[]] x']; simpl; eauto 10.
  - destruct (scope !! "Page") as [ctor|]; simpl; [|auto 10].
    destruct (py_call ctor x) as [[e|page] x1]; simpl; [auto 10|].
    destruct (solara_render _ (w_boxes w) x1) as [[e|[]] x']; simpl; eauto 10.
Qed.

(** X2: code that does not compile is never run.  [_run_solara] raises
    what [compile] raised; [exec] is not entered, the state outside is
    the one before the call, and no container is created. *)
Theorem run_solara_compile_error `{Host} (code : string) (w : world) (e : exn) :
  py_compile code = inl e ->
  fst (_run_solara code w) = Raise e /\
  w_ext (snd (_run_solara code w)) = w_ext w /\
  exec_count (w_trace (snd (_run_solara code w))) = exec_count (w_trace w) /\
  w_boxes (snd (_run_solara code w)) = w_boxes w /\
  w_mounted (snd (_run_solara code w)) = w_mounted w.
Proof.
  intros Hc. unfold _run_solara. run_monad. rewrite Hc. simpl. auto.
Qed.

Lemma run_solara_compile_error_witness :
  fst (_run_solara (H := Faulty.host) "1 +" Faulty.w0) =
    Raise Faulty.syntax_error /\
  w_ext (snd (_run_solara (H := Faulty.host) "1 +" Faulty.w0)) = 0.
Proof.
  destruct (run_solara_compile_error (H := Faulty.host) "1 +" Faulty.w0
              Faulty.syntax_error eq_refl) as (Hr & Hx & _).
  split; [exact Hr|exact Hx].
Defined.

Lemma live_fence_without_python_lexer_aux `{Host} src extra unsafe w :
  lexers "python" = None ->
  _highlight src "solara" unsafe extra w = (Raise (ClassNotFound "python"), w).
Proof.
  intros Hl. unfold _highlight. run_monad. rewrite Hl. reflexivity.
Qed.

(** ** The world after a fence *)

Lemma highlight_world `{Host} src language unsafe extra w :
  snd (_highlight src language unsafe extra w) = w \/
  (language = "solara" /\ unsafe = true /\
   snd (_highlight src language unsafe extra w) = snd (_run_solara src w)).
Proof.
  destruct (String.eqb_spec language "solara") as [->|Hne].
  - destruct unsafe.
    + destruct (lexers "python") as [lx|] eqn:Hl.
      * right. rewrite (highlight_live_enabled _ _ _ _ Hl).
        destruct (_run_solara src w) as [[m|e] w']; auto.
      * left. rewrite (live_fence_without_python_lexer_aux src extra true w Hl). reflexivity.
    + left. rewrite highlight_live_disabled. reflexivity.
  - left. rewrite (highlight_plain _ _ _ _ _ Hne). reflexivity.
Qed.

(** The wrapper of [Markdown] changes the world as [_highlight] does, and
    may add one record to the log. *)
Lemma Markdown_highlight_world `{Host} unsafe src language extra w :
  snd (Markdown_highlight unsafe src language extra w) =
    snd (_highlight src language unsafe extra w) \/
  exists e,
    fst (_highlight src language unsafe extra w) = Raise e /\
    exn_is_Exception e = true /\
    fst (Markdown_highlight unsafe src language extra w) = Ok (repr_exn e) /\
    snd (Markdown_highlight unsafe src language extra w) =
      World _ (w_ext (snd (_highlight src language unsafe extra w)))
        (w_boxes (snd (_highlight src language unsafe extra w)))
        (w_mounted (snd (_highlight src language unsafe extra w)))
        (Log_error ("Error highlighting code: " +:+ src) e
           :: w_log (snd (_highlight src language unsafe extra w)))
        (w_trace (snd (_highlight src language unsafe extra w))).
Proof.
  unfold Markdown_highlight, try_except.
  destruct (_highlight src language unsafe extra w) as [[fr|e] w']; [left; reflexivity|].
  destruct (exn_is_Exception e) eqn:He; [|left; reflexivity].
  right. exists e. auto.
Qed.

Lemma custom_fences_world `{Host} highlight body lang attrs w :
  (fst (custom_fences highlight body lang attrs w) <> fst (highlight body lang EmptyString w) ->
   exists fr, custom_fences highlight body lang attrs w = (Ok fr, w)) /\
  (snd (custom_fences highlight body lang attrs w) = w \/
   (lang = "solara" /\
    custom_fences highlight body lang attrs w = highlight body lang EmptyString w)).
Proof.
  unfold custom_fences. destruct (String.eqb lang "mermaid").
  - split; [eexists; reflexivity|left; reflexivity].
  - destruct (String.eqb_spec lang "solara") as [->|_].
    + split; [congruence|right; auto].
    + split; [eexists; reflexivity|left; reflexivity].
Qed.

(** A relation between worlds that every fence call respects is respected
    by the rendering of a token list. *)
Lemma render_tokens_rel `{Host} (R : world -> world -> Prop) fence tokens :
  (forall w, R w w) ->
  (forall a b c, R a b -> R b c -> R a c) ->
  (forall lang attrs body w, R w (snd (fence body lang attrs w))) ->
  forall w, R w (snd (render_tokens fence tokens w)).
Proof.
  intros Hrefl Htrans Hf. induction tokens as [|[s|lang attrs body] tokens IH]; intros w.
  - apply Hrefl.
  - cbn [render_tokens]. unfold bind, ret. specialize (IH w).
    destruct (render_tokens fence tokens w) as [[tail|e] w1]; exact IH.
  - rewrite render_tokens_fence. specialize (Hf lang attrs body w).
    destruct (fence body lang attrs w) as [[fr|e] w0]; [|exact Hf].
    specialize (IH w0). simpl in Hf.
    destruct (render_tokens fence tokens w0) as [[tail|e] w1];
      simpl in *; eapply Htrans; eassumption.
Qed.

Lemma highlight_no_lexer_world `{Host} src language unsafe extra w :
  lexers "python" = None -> snd (_highlight src language unsafe extra w) = w.
Proof.
  intros Hl. destruct (highlight_world src language unsafe extra w)
    as [E|(-> & _ & _)]; [exact E|].
  rewrite (live_fence_without_python_lexer_aux _ _ _ _ Hl). reflexivity.
Qed.

(** ** Highlighting comes before execution *)

(** X3: the source of a live fence is highlighted before it is run, under
    the alias [python].  When no lexer is registered for [python], a live
    fence raises [ClassNotFound] for [python] even with execution
    enabled, and no code is compiled or run by a render of any document:
    [MarkdownIt] leaves the world as it was, and [Markdown] changes
    nothing but the log. *)
Theorem no_python_lexer_no_execution `{Host} (unsafe : bool) (w : world) :
  lexers "python" = None ->
  (forall src extra,
      _highlight src "solara" unsafe extra w = (Raise (ClassNotFound "python"), w)) /\
  (forall text highlight, snd (MarkdownIt text highlight unsafe w) = w) /\
  (forall text style,
      w_ext (snd (Markdown text unsafe style w)) = w_ext w /\
      w_trace (snd (Markdown text unsafe style w)) = w_trace w /\
      w_boxes (snd (Markdown text unsafe style w)) = w_boxes w /\
      w_mounted (snd (Markdown text unsafe style w)) = w_mounted w).
Proof.
  intros Hl. split; [intros; apply live_fence_without_python_lexer_aux, Hl|]. split.
  - intros text highlight.
    assert (snd (MarkdownIt_html text unsafe w) = w) as Hw.
    { unfold MarkdownIt_html.
      apply (render_tokens_rel (fun a b => b = a)); [reflexivity|congruence|].
      intros lang attrs body w0. apply highlight_no_lexer_world, Hl. }
    unfold MarkdownIt, bind.
    destruct (MarkdownIt_html text unsafe w) as [[html|e] w']; exact Hw.
  - intros text style.
    assert (w_ext (snd (Markdown_html text unsafe w)) = w_ext w /\
            w_trace (snd (Markdown_html text unsafe w)) = w_trace w /\
            w_boxes (snd (Markdown_html text unsafe w)) = w_boxes w /\
            w_mounted (snd (Markdown_html text unsafe w)) = w_mounted w) as Hw.
    { unfold Markdown_html.
      apply (render_tokens_rel (fun a b =>
               w_ext b = w_ext a /\ w_trace b = w_trace a /\
               w_boxes b = w_boxes a /\ w_mounted b = w_mounted a)).
      - auto.
      - intros a b c (? & ? & ? & ?) (? & ? & ? & ?). repeat split; congruence.
      - intros lang attrs body w0.
        destruct (custom_fences_world (Markdown_highlight unsafe) body lang attrs w0)
          as [_ [-> | (_ & ->)]]; [auto|].
        pose proof (highlight_no_lexer_world body lang unsafe EmptyString w0 Hl) as Hh.
        destruct (Markdown_highlight_world unsafe body lang EmptyString w0)
          as [-> | (e & _ & _ & _ & ->)]; rewrite Hh; auto. }
    unfold Markdown, bind.
    destruct (Markdown_html text unsafe w) as [[html|e] w']; exact Hw.
Qed.

Lemma no_python_lexer_no_execution_witness :
  snd (MarkdownIt (H := Faulty.host) Demo.doc_live [] true Faulty.w0) = Faulty.w0.
Proof.
  apply (no_python_lexer_no_execution (H := Faulty.host) true Faulty.w0 eq_refl).
Defined.

(** ** What [Markdown] lets out *)




(** ** Containers *)

Lemma run_solara_mounted_ok `{Host} code w :
  mounted_ok w -> mounted_ok (snd (_run_solara code w)).
Proof.
  intros [Ha Hn]. destruct (run_solara_outcome code w) as (_ & _ & _ & Hres).
  unfold mounted_ok, boxes_allocated in *.
  destruct (fst (_run_solara code w)).
  - destruct Hres as (_ & Hb & _ & tree & Hm). rewrite Hm, Hb. simpl. split.
    + constructor; [simpl; lia|].
      eapply List.Forall_impl; [|exact Ha]. intros m Hlt. simpl in *. lia.
    + apply NoDup_cons. split; [|exact Hn].
      intros Hin. apply list_elem_of_In, in_map_iff in Hin as (m & Hm' & Hin).
      rewrite List.Forall_forall in Ha. specialize (Ha m Hin). lia.
  - destruct Hres as (Hm & Hb). rewrite Hm. split; [|exact Hn].
    eapply List.Forall_impl; [|exact Ha]. intros m Hlt. simpl in *.
    destruct Hb as [-> | ->]; lia.
Qed.

Lemma highlight_mounted_ok `{Host} src language unsafe extra w :
  mounted_ok w -> mounted_ok (snd (_highlight src language unsafe extra w)).
Proof.
  intros Hw. destruct (highlight_world src language unsafe extra w) as [->|(_ & _ & ->)];
    [exact Hw|apply run_solara_mounted_ok, Hw].
Qed.

(** X6: the numbers of the containers that hold a tree stay pairwise
    distinct, and below the number of containers created, through a
    render of either component, whatever its outcome: no live fence is
    ever mounted into a container that another tree occupies. *)
Theorem renders_keep_containers_apart `{Host} (text : string) (unsafe : bool)
    (w : world) :
  mounted_ok w ->
  (forall highlight, mounted_ok (snd (MarkdownIt text highlight unsafe w))) /\
  (forall style, mounted_ok (snd (Markdown text unsafe style w))).
Proof.
  intros Hw. split.
  - intros highlight.
    assert (mounted_ok (snd (MarkdownIt_html text unsafe w))) as Hr.
    { unfold MarkdownIt_html.
      apply (render_tokens_rel (fun a b => mounted_ok a -> mounted_ok b)); auto.
      intros lang attrs body w0. apply highlight_mounted_ok. }
    unfold MarkdownIt, bind.
    destruct (MarkdownIt_html text unsafe w) as [[html|e] w']; exact Hr.
  - intros style.
    assert (mounted_ok (snd (Markdown_html text unsafe w))) as Hr.
    { unfold Markdown_html.
      apply (render_tokens_rel (fun a b => mounted_ok a -> mounted_ok b)); auto.
      intros lang attrs body w0 Hw0.
      destruct (custom_fences_world (Markdown_highlight unsafe) body lang attrs w0)
        as [_ [-> | (_ & ->)]]; [exact Hw0|].
      pose proof (highlight_mounted_ok body lang unsafe EmptyString w0 Hw0) as Hh.
      destruct (Markdown_highlight_world unsafe body lang EmptyString w0)
        as [-> | (e & _ & _ & _ & ->)]; exact Hh. }
    unfold Markdown, bind.
    destruct (Markdown_html text unsafe w) as [[html|e] w']; exact Hr.
Qed.

Lemma renders_keep_containers_apart_witness :
  mounted_ok (snd (MarkdownIt (H := Demo.host) Demo.doc_live [] true Demo.w0)).
Proof.
  assert (mounted_ok Demo.w0) as Hw0 by (split; [apply List.Forall_nil|apply NoDup_nil_2]).
  exact (proj1 (renders_keep_containers_apart (H := Demo.host) Demo.doc_live true
                  Demo.w0 Hw0) []).
Defined.

(** ** One run per live fence *)








(** X8: [MarkdownIt] stops at the first fence that raises.  What comes
    after that fence in the document has no effect: the render raises
    the same exception and ends in the world the failing fence left, so
    no live fence behind it is compiled or run. *)
Theorem MarkdownIt_stops_at_first_failure `{Host} (text : string)
    (highlight : list Z) (unsafe : bool) (pre post : list token) (w w1 : world)
    (e : exn) :
  markdown_it_parse (dedent text) = pre ++ post ->
  render_tokens (fun code name a => _highlight code name unsafe a) pre w = (Raise e, w1) ->
  MarkdownIt text highlight unsafe w = (Raise e, w1).
Proof.
  intros Hparse Hpre. unfold MarkdownIt, MarkdownIt_html, bind.
  rewrite Hparse, render_tokens_app, Hpre. reflexivity.
Qed.

Lemma MarkdownIt_stops_at_first_failure_witness :
  MarkdownIt (H := Demo.host) (Demo.doc_unknown +:+ nl +:+ Demo.doc_live) [] true Demo.w0 =
    (Raise (ClassNotFound "brainfuck9000"), Demo.w0).
Proof.
  apply (MarkdownIt_stops_at_first_failure (H := Demo.host)
           (Demo.doc_unknown +:+ nl +:+ Demo.doc_live) [] true
           [Fence "brainfuck9000" EmptyString "++"]
           [Html ("<p>hi</p>" +:+ nl); Fence "solara" EmptyString "app = 1"]
           Demo.w0 Demo.w0); reflexivity.
Defined.

(** ** [Markdown] goes on after a failure *)





(** ** Reading a hashed text and a template from the right *)

Lemma append_inv_last a b c d :
  a +:+ String c EmptyString = b +:+ String d EmptyString -> a = b /\ c = d.
Proof.
  revert b. induction a as [|x a IH]; intros [|y b] E.
  - injection E as ->. auto.
  - rewrite append_nil_l, append_cons in E. injection E as _ E. destruct b; discriminate.
  - rewrite append_nil_l, append_cons in E. injection E as _ E. destruct a; discriminate.
  - rewrite !append_cons in E. injection E as -> E.
    destruct (IH _ E) as [-> ->]. auto.
Qed.

Lemma append_inv_tail t a b : a +:+ t = b +:+ t -> a = b.
Proof.
  revert a b. induction t as [|c t IH]; intros a b E.
  - rewrite !append_nil_r in E. exact E.
  - change (String c t) with (String c EmptyString +:+ t) in E.
    rewrite <- !append_assoc in E. apply IH in E. apply append_inv_last in E. tauto.
Qed.

Lemma append_flag_inj h1 h2 u1 u2 :
  h1 +:+ str_bool u1 = h2 +:+ str_bool u2 -> h1 = h2 /\ u1 = u2.
Proof.
  destruct u1, u2; intros E.
  - apply append_inv_tail in E. auto.
  - exfalso.
    change (str_bool true) with ("Tr" +:+ "u" +:+ "e") in E.
    change (str_bool false) with ("Fal" +:+ "s" +:+ "e") in E.
    rewrite <- !append_assoc in E.
    apply append_inv_last in E as [E _]. apply append_inv_last in E as [_ E].
    discriminate.
  - exfalso.
    change (str_bool true) with ("Tr" +:+ "u" +:+ "e") in E.
    change (str_bool false) with ("Fal" +:+ "s" +:+ "e") in E.
    rewrite <- !append_assoc in E.
    apply append_inv_last in E as [E _]. apply append_inv_last in E as [_ E].
    discriminate.
  - apply append_inv_tail in E. auto.
Qed.

Lemma char_free_append_inv c a b :
  char_free c (a +:+ b) = char_free c a && char_free c b.
Proof.
  induction a as [|x a IH]; [reflexivity|].
  rewrite append_cons. cbn [char_free]. rewrite IH, andb_assoc. reflexivity.
Qed.

(** The last occurrence of a character splits a text in one way. *)
Lemma append_last_char_inj c x1 x2 t1 t2 :
  char_free c t1 = true -> char_free c t2 = true ->
  x1 +:+ String c t1 = x2 +:+ String c t2 -> x1 = x2 /\ t1 = t2.
Proof.
  intros H1 H2. revert x2. induction x1 as [|a x1 IH]; intros [|b x2] E.
  - injection E as ->. auto.
  - exfalso. rewrite append_nil_l, append_cons in E. injection E as _ ->.
    rewrite char_free_append_inv in H1. cbn [char_free] in H1.
    rewrite Ascii.eqb_refl in H1. simpl in H1. rewrite andb_false_r in H1. discriminate.
  - exfalso. rewrite append_nil_l, append_cons in E. injection E as _ <-.
    rewrite char_free_append_inv in H2. cbn [char_free] in H2.
    rewrite Ascii.eqb_refl in H2. simpl in H2. rewrite andb_false_r in H2. discriminate.
  - rewrite !append_cons in E. injection E as -> E.
    destruct (IH _ E) as [-> ->]. auto.
Qed.

Lemma all_num_bracket_free s : all_num s = true -> char_free "[" s = true.
Proof.
  induction s as [|c s IH]; [reflexivity|]. cbn [all_num char_free].
  intros Hs. apply andb_true_iff in Hs as [Hc Hs]. rewrite (IH Hs), andb_true_r.
  destruct (Ascii.eqb_spec c "[") as [->|_]; [discriminate Hc|reflexivity].
Qed.

Lemma join_comma_bracket_free l : char_free "[" (join_comma (map repr_int l)) = true.
Proof.
  induction l as [|n l IH]; [reflexivity|].
  rewrite join_comma_cons, char_free_append_inv.
  destruct (repr_int_shape n) as (c & s & -> & Hn).
  rewrite (all_num_bracket_free _ Hn). simpl.
  destruct l as [|m l]; [reflexivity|].
  unfold items_tail. rewrite char_free_append_inv, IH. reflexivity.
Qed.

(** X10: the text that is hashed determines what went into it.  Two
    renders of [MarkdownIt] hash the same text only when they agree on
    the HTML, the flag and the highlight list, and two renders of
    [Markdown] only when they agree on the HTML and the flag; so equal
    keys of renders that differ in any of these are a collision of the
    digest. *)
Theorem key_text_determines_inputs `{Host} (h1 h2 : string) (l1 l2 : list Z)
    (u1 u2 : bool) :
  (MarkdownIt_key_text h1 l1 u1 = MarkdownIt_key_text h2 l2 u2 ->
   h1 = h2 /\ l1 = l2 /\ u1 = u2) /\
  (Markdown_key_text h1 u1 = Markdown_key_text h2 u2 -> h1 = h2 /\ u1 = u2) /\
  ((h1, l1, u1) <> (h2, l2, u2) ->
   sha256_hexdigest (MarkdownIt_key_text h1 l1 u1) =
   sha256_hexdigest (MarkdownIt_key_text h2 l2 u2) ->
   digest_collision (MarkdownIt_key_text h1 l1 u1) (MarkdownIt_key_text h2 l2 u2)).
Proof.
  assert (Hinj : MarkdownIt_key_text h1 l1 u1 = MarkdownIt_key_text h2 l2 u2 ->
                 h1 = h2 /\ l1 = l2 /\ u1 = u2).
  { unfold MarkdownIt_key_text, repr_list. intros E.
    change ("[" +:+ ?x) with (String "[" x) in E.
    rewrite <- !append_assoc in E.
    apply append_last_char_inj in E as [Ehu El];
      try (rewrite char_free_append_inv, join_comma_bracket_free; reflexivity).
    apply join_comma_inj in El. apply append_flag_inj in Ehu. tauto. }
  split; [exact Hinj|]. split; [apply append_flag_inj|].
  intros Hne Hd. split; [|exact Hd].
  intros E. apply Hinj in E as (-> & -> & ->). congruence.
Qed.

Lemma key_text_determines_inputs_witness :
  MarkdownIt_key_text "<b>True" [1]%Z false <> MarkdownIt_key_text "<b>" [1]%Z true.
Proof.
  intros E.
  destruct (proj1 (key_text_determines_inputs (H := Demo.host) "<b>True" "<b>"
                     [1]%Z [1]%Z false true) E) as (_ & _ & Hu).
  discriminate Hu.
Defined.

(** ** The template *)

Lemma markdown_template_style_inj html s1 s2 :
  _markdown_template html s1 = _markdown_template html s2 -> s1 = s2.
Proof.
  unfold _markdown_template. intros E.
  apply (inj (String.append template_head)) in E.
  apply (append_inv_tail (template_mid +:+ html +:+ template_tail)), E.
Qed.

Lemma markdown_template_html_inj style h1 h2 :
  _markdown_template h1 style = _markdown_template h2 style -> h1 = h2.
Proof.
  unfold _markdown_template. intros E.
  apply (inj (String.append template_head)) in E.
  apply (inj (String.append style)) in E.
  apply (inj (String.append template_mid)) in E.
  apply (append_inv_tail template_tail), E.
Qed.

(** X11: [_markdown_template] puts the style and the HTML into the
    template as they are, without escaping.  For one style the template
    determines the HTML, and for one HTML it determines the style; but a
    style that holds a double quote followed by [>] closes the opening
    tag, and then the same template comes from two different pairs of
    style and HTML. *)
Theorem markdown_template_splices_verbatim (a b c : string) :
  (forall style h1 h2,
      _markdown_template h1 style = _markdown_template h2 style -> h1 = h2) /\
  (forall html s1 s2,
      _markdown_template html s1 = _markdown_template html s2 -> s1 = s2) /\
  _markdown_template c (a +:+ dq +:+ ">" +:+ b) =
  _markdown_template (b +:+ dq +:+ ">" +:+ c) a.
Proof.
  split; [apply markdown_template_html_inj|].
  split; [apply markdown_template_style_inj|].
  unfold _markdown_template, template_mid. rewrite !append_assoc. reflexivity.
Qed.

(** X12: the key of [Markdown] does not cover the style.  Two renders of
    one text with one flag from one world, with any two styles, end in
    the same world and raise the same exception or return the same key;
    their templates are equal exactly when the two styles flatten to the
    same text. *)
Theorem Markdown_key_ignores_style `{Host} (text : string) (unsafe : bool)
    (s1 s2 : style_arg) (w : world) :
  snd (Markdown text unsafe s1 w) = snd (Markdown text unsafe s2 w) /\
  match fst (Markdown text unsafe s1 w), fst (Markdown text unsafe s2 w) with
  | Ok v1, Ok v2 =>
      key v1 = key v2 /\
      (template v1 = template v2 <-> _flatten_style s1 = _flatten_style s2)
  | Raise e1, Raise e2 => e1 = e2
  | _, _ => False
  end.
Proof.
  unfold Markdown, bind.
  destruct (Markdown_html text unsafe w) as [[html|e] w']; simpl; [|auto].
  split; [reflexivity|]. split; [reflexivity|]. split.
  - apply markdown_template_style_inj.
  - intros ->. reflexivity.
Qed.

(** ** Dedenting twice *)

Lemma prefix_drop m b :
  String.prefix m b = true -> b = m +:+ drop_chars (String.length m) b.
Proof.
  revert b. induction m as [|x m IH]; intros b Hm; [reflexivity|].
  destruct b as [|y b]; [discriminate|]. rewrite prefix_cons in Hm.
  apply andb_true_iff in Hm as [Hxy Hm]. apply Ascii.eqb_eq in Hxy as ->.
  rewrite append_cons. cbn [String.length drop_chars]. f_equal. apply IH, Hm.
Qed.

Lemma leading_blank_all_blank s : all_blank (leading_blank s) = true.
Proof.
  induction s as [|c s IH]; [reflexivity|]. cbn [leading_blank].
  destruct (is_blank c) eqn:E; [|reflexivity]. cbn [all_blank]. rewrite E, IH. reflexivity.
Qed.

Lemma prefix_all_blank m s :
  String.prefix m s = true -> all_blank s = true -> all_blank m = true.
Proof.
  intros Hm Hs. rewrite (prefix_drop _ _ Hm), all_blank_append in Hs.
  apply andb_true_iff in Hs. tauto.
Qed.

Lemma char_free_drop c n s : char_free c s = true -> char_free c (drop_chars n s) = true.
Proof.
  revert s. induction n as [|n IH]; intros s Hs; [destruct s; exact Hs|].
  destruct s as [|x s]; [exact Hs|]. cbn [drop_chars]. apply IH.
  cbn [char_free] in Hs. apply andb_true_iff in Hs. tauto.
Qed.

Lemma cut_line_free margin line :
  char_free (ascii_of_nat 10) line = true ->
  char_free (ascii_of_nat 10) (cut_line margin line) = true.
Proof.
  intros Hl. destruct margin as [[|c m]|]; try exact Hl.
  unfold cut_line, cut_margin. destruct (startswith line (String c m)); [|exact Hl].
  apply char_free_drop, Hl.
Qed.

Lemma blank_out_free line :
  char_free (ascii_of_nat 10) line = true ->
  char_free (ascii_of_nat 10) (blank_out line) = true.
Proof. intros Hl. unfold blank_out. destruct (all_blank line); [reflexivity|exact Hl]. Qed.

Lemma filter_map_same {A} (p : A -> bool) (f : A -> A) l :
  (forall a, In a l -> p (f a) = p a) ->
  List.filter p (map f l) = map f (List.filter p l).
Proof.
  induction l as [|a l IH]; intros Hp; [reflexivity|].
  cbn [map List.filter]. rewrite (Hp a) by (left; reflexivity).
  rewrite IH by (intros; apply Hp; right; assumption).
  destruct (p a); reflexivity.
Qed.

(** What the margin [Some m] does to the emptied lines: a line with text
    begins with [m], which is blank, and loses it; an empty line stays
    empty. *)
Lemma margin_of_lines raw m b :
  margin_of (map blank_out raw) = Some m ->
  In b (map blank_out raw) ->
  cut_line (Some m) b = drop_chars (String.length m) b /\
  all_blank (drop_chars (String.length m) b) = all_blank b /\
  (all_blank b = false ->
   all_blank m = true /\ b = m +:+ drop_chars (String.length m) b).
Proof.
  intros Hm Hin. destruct (all_blank b) eqn:E.
  - apply in_map_iff in Hin as (l & <- & _). rewrite blank_out_blank in E.
    unfold blank_out. rewrite E. rewrite cut_line_empty.
    split; [destruct m; reflexivity|]. split; [destruct m; reflexivity|discriminate].
  - assert (In (leading_blank b)
              (map leading_blank
                 (List.filter (fun l => negb (all_blank l)) (map blank_out raw)))) as Hi.
    { apply in_map, filter_In. rewrite E. auto. }
    destruct (fold_margin_prefix
                (map leading_blank
                   (List.filter (fun l => negb (all_blank l)) (map blank_out raw))) None)
      as (m' & Hm' & Hall & _).
    { left. intros Hnil. rewrite Hnil in Hi. destruct Hi. }
    unfold margin_of in Hm. rewrite Hm' in Hm. injection Hm as ->.
    assert (String.prefix m b = true) as Hmb.
    { eapply prefix_trans; [apply Hall, Hi|apply leading_blank_prefix]. }
    assert (all_blank m = true) as Hbm.
    { eapply prefix_all_blank; [apply Hall, Hi|apply leading_blank_all_blank]. }
    pose proof (prefix_drop _ _ Hmb) as Hb.
    split; [apply cut_line_prefix, Hmb|]. split; [|auto].
    rewrite Hb, all_blank_append, Hbm in E. exact E.
Qed.

(** Once the margin is cut, no margin is left. *)
Lemma margin_of_cut raw m :
  margin_of (map blank_out raw) = Some m ->
  margin_of (map (drop_chars (String.length m)) (map blank_out raw)) = Some EmptyString.
Proof.
  intros Hm. pose proof Hm as Hfold. unfold margin_of in Hfold |- *.
  rewrite filter_map_same
    by (intros b Hb; f_equal; apply (margin_of_lines raw m b Hm Hb)).
  set (F := List.filter (fun l => negb (all_blank l)) (map blank_out raw)) in *.
  assert (map leading_blank F =
          map (String.append m) (map leading_blank (map (drop_chars (String.length m)) F)))
    as HI.
  { rewrite !map_map. apply List.map_ext_in. intros b Hb.
    apply filter_In in Hb as [Hb Hnb]. apply negb_true_iff in Hnb.
    destruct (margin_of_lines raw m b Hm Hb) as (_ & _ & Hcut).
    destruct (Hcut Hnb) as [Hbm Heq].
    rewrite Heq at 1. apply leading_blank_append, Hbm. }
  rewrite HI in Hfold.
  change (@None string) with (option_map (String.append m) None) in Hfold.
  rewrite fold_margin_append in Hfold.
  destruct (fold_left margin_step _ None) as [m'|]; [|discriminate].
  cbn [option_map] in Hfold. injection Hfold as Hfold.
  rewrite <- (append_nil_r m) in Hfold at 2.
  apply (inj (String.append m)) in Hfold. rewrite Hfold. reflexivity.
Qed.

Lemma dedent_dedent text : dedent (dedent text) = dedent text.
Proof.
  unfold dedent.
  set (B := map blank_out (split_lines text)).
  assert (Forall (fun l => char_free (ascii_of_nat 10) l = true) B) as HB.
  { unfold B. rewrite List.Forall_map. eapply List.Forall_impl; [|apply split_lines_free].
    intros l. apply blank_out_free. }
  rewrite split_join_lines.
  2:{ unfold B. destruct (split_lines text) eqn:E;
        [destruct (split_lines_not_nil _ E)|discriminate]. }
  2:{ rewrite List.Forall_map. eapply List.Forall_impl; [|exact HB].
      intros l. apply cut_line_free. }
  destruct (margin_of B) as [m|] eqn:Hm.
  - assert (map (cut_line (Some m)) B = map (drop_chars (String.length m)) B) as ->.
    { apply List.map_ext_in. intros b Hb. apply (margin_of_lines _ m b Hm Hb). }
    assert (map blank_out (map (drop_chars (String.length m)) B) =
            map (drop_chars (String.length m)) B) as ->.
    { rewrite <- (List.map_id (map (drop_chars (String.length m)) B)) at 2.
      apply List.map_ext_in. intros d Hd. apply in_map_iff in Hd as (b & <- & Hb).
      destruct (margin_of_lines _ m b Hm Hb) as (_ & Hbl & _).
      unfold blank_out. destruct (all_blank (drop_chars _ b)) eqn:E; [|reflexivity].
      unfold B in Hb. apply in_map_iff in Hb as (l & <- & _).
      rewrite blank_out_blank in Hbl. unfold blank_out. rewrite <- Hbl.
      destruct m; reflexivity. }
    unfold B in *. rewrite (margin_of_cut _ m Hm). f_equal. apply List.map_id.
  - assert (map (cut_line None) B = B) as -> by apply List.map_id.
    assert (map blank_out B = B) as ->.
    { unfold B. rewrite map_map. apply map_ext. intros l.
      unfold blank_out at 1. rewrite blank_out_blank. unfold blank_out.
      destruct (all_blank l); reflexivity. }
    rewrite Hm. f_equal. apply List.map_id.
Qed.

(** X13: a text that was dedented already is left as it is by [dedent],
    so both components give the same result for a text and for the text
    dedented beforehand. *)
Theorem render_of_dedented_text `{Host} (text : string) (highlight : list Z)
    (unsafe : bool) (style : style_arg) (w : world) :
  dedent (dedent text) = dedent text /\
  MarkdownIt (dedent text) highlight unsafe w = MarkdownIt text highlight unsafe w /\
  Markdown (dedent text) unsafe style w = Markdown text unsafe style w.
Proof.
  pose proof (dedent_dedent text) as Hd. split; [exact Hd|].
  unfold MarkdownIt, Markdown, MarkdownIt_html, Markdown_html. rewrite Hd.
  split; reflexivity.
Qed.
